(** * ALX Polly: the poll server actions (app/lib/actions/poll-actions.ts)

    A shallow embedding of the four mutating server actions [createPoll],
    [submitVote], [deletePoll] and [updatePoll], of the input schemas
    [pollSchema] and [voteSchema] and of [sanitizeHtml]; then of the two
    read actions [getUserPolls] and [getPollById] and of the security
    headers of [middleware.ts].

    JavaScript strings are sequences of code units; they are modelled by
    [string], whose code units are 8 bits wide.  Nothing below depends on
    the width of a code unit: the five characters the sanitizer escapes and
    the characters it emits are all ASCII. *)

From Stdlib Require Import String Ascii List Bool Arith ZArith Lia.
Import ListNotations.
Local Open Scope string_scope.

Set Implicit Arguments.

(* ================================================================= *)
(** ** JavaScript string primitives used by the actions *)

Module Js.

(** [s.replace(/c/g, rep)] for a one-character pattern [c]. *)
Fixpoint replace_all (c : ascii) (rep : string) (s : string) : string :=
  match s with
  | EmptyString => EmptyString
  | String a rest =>
      if Ascii.eqb a c then rep ++ replace_all c rep rest
      else String a (replace_all c rep rest)
  end.

(** [s.includes(c)] for a one-character needle. *)
Fixpoint includes_char (c : ascii) (s : string) : bool :=
  match s with
  | EmptyString => false
  | String a rest => Ascii.eqb a c || includes_char c rest
  end.

(** White space and line terminators stripped by [String.prototype.trim]
    (TAB, LF, VT, FF, CR, SP, NBSP among 8-bit code units). *)
Definition is_white_space (a : ascii) : bool :=
  let n := nat_of_ascii a in
  existsb (Nat.eqb n) [9; 10; 11; 12; 13; 32; 160].

Fixpoint trimStart (s : string) : string :=
  match s with
  | EmptyString => EmptyString
  | String a rest => if is_white_space a then trimStart rest else s
  end.

Fixpoint trimEnd (s : string) : string :=
  match s with
  | EmptyString => EmptyString
  | String a rest =>
      match trimEnd rest with
      | EmptyString => if is_white_space a then EmptyString
                       else String a EmptyString
      | kept => String a kept
      end
  end.

Definition trim (s : string) : string := trimEnd (trimStart s).

(** [s.split(sep)] for a one-character separator: never returns the empty
    array (one empty piece for the empty string). *)
Fixpoint split (sep : ascii) (s : string) : list string :=
  match s with
  | EmptyString => [EmptyString]
  | String a rest =>
      if Ascii.eqb a sep then EmptyString :: split sep rest
      else match split sep rest with
           | [] => [String a EmptyString]
           | piece :: pieces => String a piece :: pieces
           end
  end.

(** [xs.includes(x)] on an array of strings. *)
Definition includes (xs : list string) (x : string) : bool :=
  existsb (String.eqb x) xs.

(** [Boolean(s)] on a string: the empty string is the only falsy one. *)
Definition truthy (s : string) : bool :=
  match s with EmptyString => false | String _ _ => true end.

(** The values of type [number] the actions can tell apart: an
    integer-valued double, any other double that is not NaN (a finite
    fraction or an infinity, with its sign), and NaN. *)
Inductive number : Type :=
| Integer (z : Z)
| NonInteger (negative : bool)
| NaN.

End Js.

(* ================================================================= *)
(** ** sanitizeHtml *)

(** The double quote, code unit 34. *)
Definition dquote : ascii := ascii_of_nat 34.

(** The chain of five global replacements of [sanitizeHtml], in source
    order: [<] to [&lt;], [>] to [&gt;], the double quote to [&quot;],
    the single quote to [&#x27;] and [/] to [&#x2F;]. *)
Definition sanitizeHtml (input : string) : string :=
  Js.replace_all "/" "&#x2F;"
    (Js.replace_all "'" "&#x27;"
      (Js.replace_all dquote "&quot;"
        (Js.replace_all ">" "&gt;"
          (Js.replace_all "<" "&lt;" input)))).

(** The five characters the sanitizer targets. *)
Definition unsafe_chars : list ascii :=
  ["<"%char; ">"%char; dquote; "'"%char; "/"%char].

(** [raw_free s]: no raw occurrence of any of the five characters in [s]. *)
Definition raw_free (s : string) : bool :=
  forallb (fun c => negb (Js.includes_char c s)) unsafe_chars.

(* ================================================================= *)
(** ** The schema validator (zod 3) as the two schemas use it *)

Module Zod.

(** Result of [schema.safeParse(input)]: the parsed data, or the issues'
    messages in the order the checks raised them.  [error.errors] is never
    empty, hence the separate first message, which is [errors[0].message]. *)
Inductive SafeParse (A : Type) : Type :=
| success (data : A)
| failure (first : string) (others : list string).
Arguments failure {A} first others.

Definition of_issues {A : Type} (issues : list string) (data : A)
  : SafeParse A :=
  match issues with
  | [] => success data
  | first :: others => failure first others
  end.

(** One check of a schema: an issue with [message] when it is violated.
    A failed check does not stop the later ones. *)
Definition check (violated : bool) (message : string) : list string :=
  if violated then [message] else [].

(** Messages of zod's default error map for the checks that the schemas
    leave without a message of their own. *)
Definition expected_string_received_null := "Expected string, received null".
Definition string_too_small_1 := "String must contain at least 1 character(s)".
Definition string_too_big_200 := "String must contain at most 200 character(s)".
Definition expected_number_received_nan := "Expected number, received nan".
Definition expected_integer_received_float := "Expected integer, received float".
Definition number_too_small_0 := "Number must be greater than or equal to 0".

Definition is_hex (a : ascii) : bool :=
  let n := nat_of_ascii a in
  (Nat.leb 48 n && Nat.leb n 57) || (Nat.leb 65 n && Nat.leb n 70)
  || (Nat.leb 97 n && Nat.leb n 102).

Fixpoint all_hex (s : string) : bool :=
  match s with
  | EmptyString => true
  | String a rest => is_hex a && all_hex rest
  end.

(** [z.string().uuid()]: five groups of 8, 4, 4, 4 and 12 hexadecimal
    digits separated by hyphens. *)
Definition uuid (s : string) : bool :=
  match Js.split "-" s with
  | [a; b; c; d; e] =>
      forallb all_hex [a; b; c; d; e]
      && (String.length a =? 8)%nat && (String.length b =? 4)%nat
      && (String.length c =? 4)%nat && (String.length d =? 4)%nat
      && (String.length e =? 12)%nat
  | _ => false
  end.

End Zod.

(** What [pollSchema.safeParse] is given: [question] is the first form
    entry of that name ([null] when absent), [options] the array of
    entries. *)
Record PollInput : Type := {
  question : option string;
  options : list string
}.

(** [z.string().min(1, "Question is required")
      .max(500, "Question must be less than 500 characters").trim()]:
    the checks run in the order written, so both lengths are those of the
    untrimmed string. *)
Definition question_issues (q : option string) : list string :=
  match q with
  | None => [Zod.expected_string_received_null]
  | Some s =>
      Zod.check (String.length s <? 1)%nat "Question is required"
      ++ Zod.check (500 <? String.length s)%nat
           "Question must be less than 500 characters"
  end.

(** [z.string().min(1).max(200).trim()] *)
Definition option_issues (s : string) : list string :=
  Zod.check (String.length s <? 1)%nat Zod.string_too_small_1
  ++ Zod.check (200 <? String.length s)%nat Zod.string_too_big_200.

(** [z.array(...).min(2, "At least 2 options are required")
      .max(10, "Maximum 10 options allowed")]: the array's own checks
    precede those of its elements. *)
Definition options_issues (os : list string) : list string :=
  Zod.check (List.length os <? 2)%nat "At least 2 options are required"
  ++ Zod.check (10 <? List.length os)%nat "Maximum 10 options allowed"
  ++ concat (map option_issues os).

(** [pollSchema.safeParse]: keys are parsed in the order of the shape, and
    the data carries the trimmed strings. *)
Definition pollSchema (input : PollInput) : Zod.SafeParse (string * list string) :=
  Zod.of_issues
    (question_issues (question input) ++ options_issues (options input))
    (match question input with Some s => Js.trim s | None => EmptyString end,
     map Js.trim (options input)).

(** [z.number().int().min(0)] *)
Definition optionIndex_issues (n : Js.number) : list string :=
  match n with
  | Js.NaN => [Zod.expected_number_received_nan]
  | Js.NonInteger negative =>
      Zod.expected_integer_received_float
      :: Zod.check negative Zod.number_too_small_0
  | Js.Integer z => Zod.check (z <? 0)%Z Zod.number_too_small_0
  end.

(** [voteSchema.safeParse({ pollId, optionIndex })]; on success the option
    index is an integer. *)
Definition voteSchema (pollId : string) (optionIndex : Js.number)
  : Zod.SafeParse (string * Z) :=
  Zod.of_issues
    (Zod.check (negb (Zod.uuid pollId)) "Invalid poll ID"
     ++ optionIndex_issues optionIndex)
    (pollId, match optionIndex with Js.Integer z => z | _ => 0%Z end).

(* ================================================================= *)
(** ** The Supabase client as the actions see it *)

Module User.
(** The fields of the session's user that the actions read. *)
Record t : Type := { id : string; email : option string }.
End User.

Module AuthError.
Record t : Type := { message : string }.
End AuthError.

Module PostgrestError.
Record t : Type := { message : string; code : string }.
End PostgrestError.

(** [{ data: { user }, error }], the answer of [supabase.auth.getUser()].
    The actions read the two fields independently. *)
Record UserResponse : Type := {
  user : option User.t;
  userError : option AuthError.t
}.

(** [{ data, error }], the answer of a query that ends in [.single()]. *)
Record Single (A : Type) : Type := {
  data : option A;
  error : option PostgrestError.t
}.

Module IdOptions.
(** A row of [select("id, options")] on [polls].  The column [options]
    holds the array that [createPoll] inserted: a row without one, on
    which reading [poll.options.length] would throw, is not among the
    answers. *)
Record t : Type := { id : string; options : list string }.
End IdOptions.

(** The calls the actions await.  Each query is named after its table, its
    verb and the columns it selects; the arguments are the values it
    carries and the values of its [.eq] filters. *)
Inductive Request : Type :=
| auth_getUser
| polls_insert (user_id question : string) (options : list string)
| polls_select_id_options (id : string)
| polls_select_user_id (id : string)
| polls_delete (id : string)
| polls_update (question : string) (options : list string)
               (id user_id : string)
| votes_select_id (poll_id user_id : string)
| votes_insert (poll_id : string) (user_id : option string)
               (option_index : Z)
| revalidatePath (path : string).

(** What each call resolves to; for a write, its [error] field. *)
Definition Response (q : Request) : Type :=
  match q with
  | auth_getUser => UserResponse
  | polls_select_id_options _ => Single IdOptions.t
  | polls_select_user_id _ => Single string
  | votes_select_id _ _ => Single string
  | polls_insert _ _ _ | polls_delete _ | polls_update _ _ _ _
  | votes_insert _ _ _ => option PostgrestError.t
  | revalidatePath _ => unit
  end.

(** An async function: it settles, or awaits a call and goes on with the
    answer. *)
Inductive Action (R : Type) : Type :=
| done (r : R)
| await (q : Request) (k : Response q -> Action R).
Arguments done {R} r.
Arguments await {R} q k.

Notation "x <- 'await' q ;; rest" := (await q (fun x => rest))
  (at level 61, q at next level, right associativity).

(** How the promise of an action settles: resolved with [{ error }], or
    rejected by a [TypeError]. *)
Inductive Outcome : Type :=
| Resolved (error : option string)
| Rejected_TypeError.

Definition fail (message : string) : Action Outcome :=
  done (Resolved (Some message)).

Definition ok : Action Outcome := done (Resolved None).

(** The entries of a [FormData] that the actions read:
    [formData.get("question")] and [formData.getAll("options")]. *)
Record FormData : Type := {
  get_question : option string;
  getAll_options : list string
}.

(** [process.env] *)
Record ProcessEnv : Type := { env_ADMIN_EMAILS : option string }.

(* ================================================================= *)
(** ** The four actions *)

(** CREATE POLL *)
Definition createPoll (formData : FormData) : Action Outcome :=
  let rawQuestion := get_question formData in
  let rawOptions := filter Js.truthy (getAll_options formData) in
  match pollSchema {| question := rawQuestion; options := rawOptions |} with
  | Zod.failure first _ => fail first
  | Zod.success (validQuestion, validOptions) =>
      let sanitizedQuestion := sanitizeHtml validQuestion in
      let sanitizedOptions := map sanitizeHtml validOptions in
      r <- await auth_getUser ;;
      match userError r with
      | Some e => fail (AuthError.message e)
      | None =>
          match user r with
          | None => fail "You must be logged in to create a poll."
          | Some u =>
              e <- await polls_insert (User.id u) sanitizedQuestion
                                      sanitizedOptions ;;
              match e with
              | Some e => fail (PostgrestError.message e)
              | None => _ <- await revalidatePath "/polls" ;; ok
              end
          end
      end
  end.

(** The insert that ends [submitVote], with [user?.id ?? null] as voter. *)
Definition insert_vote (pollId : string) (u : option User.t)
  (optionIndex : Z) : Action Outcome :=
  e <- await votes_insert pollId (option_map User.id u) optionIndex ;;
  match e with
  | Some e =>
      if String.eqb (PostgrestError.code e) "23505"
      then fail "You have already voted on this poll."
      else fail (PostgrestError.message e)
  | None => ok
  end.

(** SUBMIT VOTE.  After a successful parse the source goes on with its own
    arguments, which the schema leaves unchanged; [optionIndex] is then an
    integer.  The [error] of [getUser] is not read. *)
Definition submitVote (pollId : string) (optionIndex : Js.number)
  : Action Outcome :=
  match voteSchema pollId optionIndex with
  | Zod.failure first _ => fail first
  | Zod.success (_, index) =>
      r <- await auth_getUser ;;
      let u := user r in
      p <- await polls_select_id_options pollId ;;
      match error p, data p with
      | None, Some poll =>
          if (index <? 0)%Z
             || (Z.of_nat (List.length (IdOptions.options poll)) <=? index)%Z
          then fail "Invalid option selected."
          else
            match u with
            | Some usr =>
                v <- await votes_select_id pollId (User.id usr) ;;
                match data v with
                | Some _ => fail "You have already voted on this poll."
                | None => insert_vote pollId u index
                end
            | None => insert_vote pollId u index
            end
      | _, _ => fail "Poll not found."
      end
  end.

(** [process.env.ADMIN_EMAILS?.split(",") || [ the two fallback addresses ]]:
    an array is always truthy, so the fallback is taken only when the
    variable is unset. *)
Definition ADMIN_EMAILS (env : ProcessEnv) : list string :=
  match env_ADMIN_EMAILS env with
  | Some s => Js.split "," s
  | None => ["admin@example.com"; "admin@alx-polly.com"]
  end.

(** [ADMIN_EMAILS.includes(user.email || (the empty string))] *)
Definition isAdmin (env : ProcessEnv) (u : User.t) : bool :=
  Js.includes (ADMIN_EMAILS env)
    (match User.email u with
     | Some e => if Js.truthy e then e else EmptyString
     | None => EmptyString
     end).

(** DELETE POLL.  When the fetch answers with neither an error nor a row,
    reading [poll.user_id] throws. *)
Definition deletePoll (env : ProcessEnv) (id : string) : Action Outcome :=
  r <- await auth_getUser ;;
  match userError r with
  | Some e => fail (AuthError.message e)
  | None =>
      match user r with
      | None => fail "You must be logged in to delete a poll."
      | Some u =>
          f <- await polls_select_user_id id ;;
          match error f with
          | Some _ => fail "Poll not found."
          | None =>
              match data f with
              | None => done Rejected_TypeError
              | Some poll_user_id =>
                  if negb (String.eqb poll_user_id (User.id u))
                     && negb (isAdmin env u)
                  then fail "You can only delete your own polls."
                  else
                    e <- await polls_delete id ;;
                    match e with
                    | Some e => fail (PostgrestError.message e)
                    | None => _ <- await revalidatePath "/polls" ;; ok
                    end
              end
          end
      end
  end.

(** UPDATE POLL.  The form entries go to the store as they are read:
    neither [pollSchema] nor [sanitizeHtml] is applied here. *)
Definition updatePoll (pollId : string) (formData : FormData)
  : Action Outcome :=
  let question := get_question formData in
  let options := filter Js.truthy (getAll_options formData) in
  match question with
  | Some q =>
      if negb (Js.truthy q) || (List.length options <? 2)%nat
      then fail "Please provide a question and at least two options."
      else
        r <- await auth_getUser ;;
        match userError r with
        | Some e => fail (AuthError.message e)
        | None =>
            match user r with
            | None => fail "You must be logged in to update a poll."
            | Some u =>
                e <- await polls_update q options pollId (User.id u) ;;
                match e with
                | Some e => fail (PostgrestError.message e)
                | None => ok
                end
            end
        end
  | None => fail "Please provide a question and at least two options."
  end.

(* ================================================================= *)
(** ** Running an action against a client *)

(** One awaited call together with its answer. *)
Inductive Event : Type :=
| GotUser (r : UserResponse)
| PollInserted (user_id question : string) (options : list string)
               (e : option PostgrestError.t)
| PollSelected (id : string) (r : Single IdOptions.t)
| OwnerSelected (id : string) (r : Single string)
| PollDeleted (id : string) (e : option PostgrestError.t)
| PollUpdated (question : string) (options : list string)
              (id user_id : string) (e : option PostgrestError.t)
| VoteSelected (poll_id user_id : string) (r : Single string)
| VoteInserted (poll_id : string) (user_id : option string)
               (option_index : Z) (e : option PostgrestError.t)
| Revalidated (path : string).

Definition observe (q : Request) : Response q -> Event :=
  match q with
  | auth_getUser => GotUser
  | polls_insert u qn os => PollInserted u qn os
  | polls_select_id_options id => PollSelected id
  | polls_select_user_id id => OwnerSelected id
  | polls_delete id => PollDeleted id
  | polls_update qn os id u => PollUpdated qn os id u
  | votes_select_id p u => VoteSelected p u
  | votes_insert p u i => VoteInserted p u i
  | revalidatePath path => fun _ => Revalidated path
  end.

(** A call on a table of the store ([supabase.from(...)]). *)
Definition store_access (e : Event) : bool :=
  match e with
  | GotUser _ | Revalidated _ => false
  | _ => true
  end.

(** A call that asks the store to insert, update or delete rows. *)
Definition store_write (e : Event) : bool :=
  match e with
  | PollInserted _ _ _ _ | PollDeleted _ _ | PollUpdated _ _ _ _ _
  | VoteInserted _ _ _ _ => true
  | _ => false
  end.

Definition is_poll_delete (e : Event) : bool :=
  match e with PollDeleted _ _ => true | _ => false end.

(** No event of the trace satisfies [p]. *)
Definition none_of (p : Event -> bool) (trace : list Event) : Prop :=
  forallb (fun e => negb (p e)) trace = true.

(** A client answers every call from a state of its own, which the call may
    change.  Nothing is assumed of it: it stands for the session provider,
    the store and whatever other requests reach them in between. *)
Definition Client (S : Type) : Type :=
  forall q : Request, S -> Response q * S.

Record Run (S R : Type) : Type := {
  result : R;
  trace : list Event;
  final : S
}.

Fixpoint run {S R : Type} (client : Client S) (a : Action R) (s : S)
  : Run S R :=
  match a with
  | done r => {| result := r; trace := []; final := s |}
  | await q k =>
      let (x, s1) := client q s in
      let rest := run client (k x) s1 in
      {| result := result rest;
         trace := observe q x :: trace rest;
         final := final rest |}
  end.

(* ================================================================= *)
(** ** An in-memory store *)

Module Poll.
Record t : Type := {
  id : string;
  user_id : string;
  question : string;
  options : list string
}.
End Poll.

Module Vote.
Record t : Type := {
  id : string;
  poll_id : string;
  user_id : option string;
  option_index : Z
}.
End Vote.

Module Store.

(** Modelled from the spec: the session provider and the persistence
    store, which are services outside the repository.  The store holds the
    two tables and offers row-level reads and writes scoped by equality
    filters; [.single()] fails unless exactly one row matches; an insert
    of a second vote of one user on one poll is refused with the
    uniqueness-violation code 23505, votes without a user being exempt;
    an update or a delete that matches no row is not an error. *)
Record World : Type := {
  session : UserResponse;
  polls : list Poll.t;
  votes : list Vote.t;
  serial : nat;
  stale : list string
}.

Definition hex_digit (n : nat) : ascii :=
  ascii_of_nat (if (n <? 10)%nat then 48 + n else 87 + n).

Fixpoint hex (width n : nat) (acc : string) : string :=
  match width with
  | O => acc
  | S w => hex w (n / 16) (String (hex_digit (n mod 16)) acc)
  end.

(** The identifier of the [n]-th row the store creates. *)
Definition gen_random_uuid (n : nat) : string :=
  "00000000-0000-4000-8000-" ++ hex 12 n EmptyString.

Definition single {A : Type} (rows : list A) : Single A :=
  match rows with
  | [row] => {| data := Some row; error := None |}
  | _ => {| data := None;
            error := Some {| PostgrestError.message :=
                               "JSON object requested, multiple (or no) rows returned";
                             PostgrestError.code := "PGRST116" |} |}
  end.

Definition unique_violation : PostgrestError.t :=
  {| PostgrestError.message :=
       "duplicate key value violates unique constraint";
     PostgrestError.code := "23505" |}.

Definition has_id (id : string) (p : Poll.t) : bool :=
  String.eqb (Poll.id p) id.

Definition owned_by (u : string) (p : Poll.t) : bool :=
  String.eqb (Poll.user_id p) u.

(** A vote of user [u] on poll [p]. *)
Definition vote_of (p u : string) (v : Vote.t) : bool :=
  String.eqb (Vote.poll_id v) p
  && match Vote.user_id v with
     | Some w => String.eqb w u
     | None => false
     end.

Definition with_tables (w : World) (ps : list Poll.t) (vs : list Vote.t)
  (n : nat) : World :=
  {| session := session w; polls := ps; votes := vs; serial := n;
     stale := stale w |}.

(** Modelled from the spec: how the session provider and the store answer
    each call of the actions, and what the call does to the tables. *)
Definition supabase : Client World :=
  fun q =>
    match q return World -> Response q * World with
    | auth_getUser => fun w => (session w, w)
    | polls_insert u qn os => fun w =>
        (None,
         with_tables w
           (polls w ++ [{| Poll.id := gen_random_uuid (serial w);
                           Poll.user_id := u;
                           Poll.question := qn;
                           Poll.options := os |}])
           (votes w) (S (serial w)))
    | polls_select_id_options id => fun w =>
        (single (map (fun p => {| IdOptions.id := Poll.id p;
                                  IdOptions.options := Poll.options p |})
                     (filter (has_id id) (polls w))), w)
    | polls_select_user_id id => fun w =>
        (single (map Poll.user_id (filter (has_id id) (polls w))), w)
    | polls_delete id => fun w =>
        (None,
         with_tables w (filter (fun p => negb (has_id id p)) (polls w))
           (votes w) (serial w))
    | polls_update qn os id u => fun w =>
        (None,
         with_tables w
           (map (fun p => if has_id id p && owned_by u p
                          then {| Poll.id := Poll.id p;
                                  Poll.user_id := Poll.user_id p;
                                  Poll.question := qn;
                                  Poll.options := os |}
                          else p) (polls w))
           (votes w) (serial w))
    | votes_select_id p u => fun w =>
        (single (map Vote.id (filter (vote_of p u) (votes w))), w)
    | votes_insert p u i => fun w =>
        if match u with
           | Some usr => existsb (vote_of p usr) (votes w)
           | None => false
           end
        then (Some unique_violation, w)
        else
          (None,
           with_tables w (polls w)
             (votes w ++ [{| Vote.id := gen_random_uuid (serial w);
                             Vote.poll_id := p;
                             Vote.user_id := u;
                             Vote.option_index := i |}])
             (S (serial w)))
    | revalidatePath path => fun w =>
        (tt, {| session := session w; polls := polls w; votes := votes w;
                serial := serial w; stale := path :: stale w |})
    end.

End Store.

(* ================================================================= *)
(** ** Vocabulary of the statements *)

(** The session lookup answered with the user [u] and no error. *)
Definition authenticated_as (u : User.t) (t : list Event) : Prop :=
  In (GotUser {| user := Some u; userError := None |}) t.

(** The question and the options as [updatePoll] reads them from a form
    that it accepts: a non-empty question and at least two non-empty
    options. *)
Definition well_formed (formData : FormData) (q : string) (os : list string)
  : Prop :=
  get_question formData = Some q
  /\ Js.truthy q = true
  /\ os = filter Js.truthy (getAll_options formData)
  /\ 2 <= List.length os.



Definition already_voted : Outcome :=
  Resolved (Some "You have already voted on this poll.").

(** [s.repeat(n)] for a one-character string. *)
Fixpoint repeat_char (a : ascii) (n : nat) : string :=
  match n with
  | O => EmptyString
  | Datatypes.S m => String a (repeat_char a m)
  end.

(* ================================================================= *)
(** ** Sample sessions, rows and worlds *)

Module Sample.

Definition alice : User.t :=
  {| User.id := "user123"; User.email := Some "test@example.com" |}.

Definition bob : User.t :=
  {| User.id := "user456"; User.email := Some "notowner@example.com" |}.


(** A user who signed up without an email. *)
Definition carol : User.t :=
  {| User.id := "user789"; User.email := None |}.

Definition signed_in (u : User.t) : UserResponse :=
  {| user := Some u; userError := None |}.

(** The lookup of a visitor without a session. *)
Definition no_session : UserResponse :=
  {| user := None;
     userError := Some {| AuthError.message := "Auth session missing!" |} |}.

Definition pollId : string := "123e4567-e89b-12d3-a456-426614174000".

(** A poll of alice with two options. *)
Definition poll : Poll.t :=
  {| Poll.id := pollId;
     Poll.user_id := "user123";
     Poll.question := "Pick one?";
     Poll.options := ["Option 1"; "Option 2"] |}.


Definition world (session : UserResponse) (votes : list Vote.t)
  : Store.World :=
  {| Store.session := session;
     Store.polls := [poll];
     Store.votes := votes;
     Store.serial := 2;
     Store.stale := [] |}.

(** [ADMIN_EMAILS] unset, and set to the empty string. *)
Definition unset : ProcessEnv := {| env_ADMIN_EMAILS := None |}.
Definition blank : ProcessEnv := {| env_ADMIN_EMAILS := Some EmptyString |}.


Definition form (q : string) : FormData :=
  {| get_question := Some q; getAll_options := ["A"; "B"] |}.

End Sample.

(* ================================================================= *)
(** ** The two read actions *)

Module Read.

(** The calls the read actions await.  A query on [polls] selects all the
    columns; the argument is the value of its [.eq] filter.  The query by
    owner is ordered by [created_at], the newest first; the query by id
    ends in [.single()]. *)
Inductive Query : Type :=
| getUser
| polls_by_user_id (user_id : string)
| polls_by_id (id : string).

(** What each call resolves to, for rows of type [Row]: the actions pass
    the rows on without reading them. *)
Definition Answer (Row : Type) (q : Query) : Type :=
  match q with
  | getUser => UserResponse
  | polls_by_user_id _ => Single (list Row)
  | polls_by_id _ => Single Row
  end.

Inductive Action (Row R : Type) : Type :=
| done (r : R)
| await (q : Query) (k : Answer Row q -> Action Row R).
Arguments done {Row R} r.
Arguments await {Row R} q k.

Definition Client (Row S : Type) : Type :=
  forall q : Query, S -> Answer Row q * S.

Record Run (S R : Type) : Type := {
  result : R;
  asked : list Query;
  final : S
}.

Fixpoint run {Row S R : Type} (client : Client Row S) (a : Action Row R)
  (s : S) : Run S R :=
  match a with
  | done r => {| result := r; asked := []; final := s |}
  | await q k =>
      let (x, s1) := client q s in
      let rest := run client (k x) s1 in
      {| result := result rest;
         asked := q :: asked rest;
         final := final rest |}
  end.

End Read.

Module UserPolls.
(** [{ polls, error }] *)
Record t (Row : Type) : Type := {
  polls : list Row;
  error : option string
}.
End UserPolls.

Module PollById.
(** [{ poll, error }] *)
Record t (Row : Type) : Type := {
  poll : option Row;
  error : option string
}.
End PollById.

(** GET USER POLLS.  The [error] of [getUser] is not read; [data ?? []]
    turns an absent array into the empty one. *)
Definition getUserPolls (Row : Type) : Read.Action Row (UserPolls.t Row) :=
  Read.await Read.getUser (fun r =>
    match user r with
    | None =>
        Read.done {| UserPolls.polls := [];
                     UserPolls.error := Some "Not authenticated" |}
    | Some u =>
        Read.await (Read.polls_by_user_id (User.id u)) (fun a =>
          match error a with
          | Some e =>
              Read.done {| UserPolls.polls := [];
                           UserPolls.error :=
                             Some (PostgrestError.message e) |}
          | None =>
              Read.done {| UserPolls.polls :=
                             match data a with
                             | Some found => found
                             | None => []
                             end;
                           UserPolls.error := None |}
          end)
    end).

(** GET POLL BY ID *)
Definition getPollById (Row : Type) (id : string)
  : Read.Action Row (PollById.t Row) :=
  Read.await (Read.polls_by_id id) (fun a =>
    match error a with
    | Some e =>
        Read.done {| PollById.poll := None;
                     PollById.error := Some (PostgrestError.message e) |}
    | None =>
        Read.done {| PollById.poll := data a; PollById.error := None |}
    end).

(* ================================================================= *)
(** ** middleware.ts *)

(** [xs.join(sep)] *)
Fixpoint join (sep : string) (xs : list string) : string :=
  match xs with
  | [] => EmptyString
  | [x] => x
  | x :: rest => x ++ sep ++ join sep rest
  end.

Module Headers.

(** A header list: names with their values, in order.  Names match
    whatever the case of their letters. *)
Definition t : Type := list (string * string).

Definition lower_char (a : ascii) : ascii :=
  let n := nat_of_ascii a in
  if Nat.leb 65 n && Nat.leb n 90 then ascii_of_nat (n + 32) else a.

Fixpoint lower (s : string) : string :=
  match s with
  | EmptyString => EmptyString
  | String a rest => String (lower_char a) (lower rest)
  end.

Definition named (name : string) (entry : string * string) : bool :=
  String.eqb (lower (fst entry)) (lower name).

(** [headers.get(name)]: the values of all the headers of that name, in
    order, joined by a comma and a space; [null] without one. *)
Definition get (name : string) (h : t) : option string :=
  match filter (named name) h with
  | [] => None
  | found => Some (join ", " (map snd found))
  end.

Fixpoint set_first (name value : string) (h : t) : t :=
  match h with
  | [] => []
  | entry :: rest =>
      if named name entry
      then (fst entry, value)
           :: filter (fun e => negb (named name e)) rest
      else entry :: set_first name value rest
  end.

(** [headers.set(name, value)]: the first header of that name takes the
    value and the others of that name go; without one, the header is
    appended.  (The values set below have no outer white space for [set]
    to strip.) *)
Definition set (name value : string) (h : t) : t :=
  if existsb (named name) h then set_first name value h
  else (h ++ [(name, value)])%list.

End Headers.

(** A response: its headers, and the rest of it. *)
Record NextResponse (Rest : Type) : Type := {
  headers : Headers.t;
  rest : Rest
}.

(** The object [securityHeaders], as [Object.entries] lists it. *)
Definition securityHeaders : list (string * string) :=
  [ ("Content-Security-Policy",
     join "; "
       [ "default-src 'self'";
         "script-src 'self' 'unsafe-inline' 'unsafe-eval'";
         "style-src 'self' 'unsafe-inline'";
         "img-src 'self' data: https:";
         "font-src 'self'";
         "connect-src 'self' https://*.supabase.co wss://*.supabase.co";
         "frame-ancestors 'none'" ]);
    ("X-Frame-Options", "DENY");
    ("X-Content-Type-Options", "nosniff");
    ("Referrer-Policy", "strict-origin-when-cross-origin");
    ("X-XSS-Protection", "1; mode=block");
    ("Strict-Transport-Security", "max-age=31536000; includeSubDomains");
    ("Permissions-Policy", "camera=(), microphone=(), geolocation=()") ].

(** [middleware(request)]: the response of [updateSession] with each of
    the security headers set on it, in the order of the entries. *)
Definition middleware {Req Rest : Type}
  (updateSession : Req -> NextResponse Rest) (request : Req)
  : NextResponse Rest :=
  let response := updateSession request in
  {| headers :=
       fold_left (fun h entry => Headers.set (fst entry) (snd entry) h)
                 securityHeaders (headers response);
     rest := rest response |}.

(* ================================================================= *)
(** ** More vocabulary *)

(** What [sanitizeHtml] makes of one character. *)
Definition escape_char (a : ascii) : string :=
  if Ascii.eqb a "<" then "&lt;"
  else if Ascii.eqb a ">" then "&gt;"
  else if Ascii.eqb a dquote then "&quot;"
  else if Ascii.eqb a "'" then "&#x27;"
  else if Ascii.eqb a "/" then "&#x2F;"
  else String a EmptyString.

(** Escaping in one pass, character by character. *)
Fixpoint escape (s : string) : string :=
  match s with
  | EmptyString => EmptyString
  | String a rest => escape_char a ++ escape rest
  end.


(** The lengths [pollSchema] allows: 1 to 500 for the question, 1 to 200
    for an option, 2 to 10 options. *)
Definition question_length_ok (q : string) : Prop :=
  1 <= String.length q <= 500.

Definition option_length_ok (o : string) : Prop :=
  1 <= String.length o <= 200.

(** [n < 0] on a number. *)
Definition below_zero (n : Js.number) : bool :=
  match n with
  | Js.Integer z => (z <? 0)%Z
  | Js.NonInteger negative => negative
  | Js.NaN => false
  end.

(** The writes among the events of a trace. *)
Definition writes (t : list Event) : list Event := filter store_write t.

Definition is_revalidation (e : Event) : bool :=
  match e with Revalidated _ => true | _ => false end.

(** The store accepted a write on [polls] that changes the listing. *)
Definition poll_write_accepted (e : Event) : bool :=
  match e with
  | PollInserted _ _ _ None | PollDeleted _ None => true
  | _ => false
  end.

(** The four actions, on any arguments. *)
Inductive one_of_the_actions : Action Outcome -> Prop :=
| is_createPoll formData : one_of_the_actions (createPoll formData)
| is_submitVote pollId optionIndex :
    one_of_the_actions (submitVote pollId optionIndex)
| is_deletePoll env id : one_of_the_actions (deletePoll env id)
| is_updatePoll pollId formData :
    one_of_the_actions (updatePoll pollId formData).

(* ================================================================= *)
(** * Properties *)

(** ** The sanitizer *)

Section Replace.

Variables (c : ascii) (rep : string).

Lemma includes_char_app (d : ascii) (s t : string) :
  Js.includes_char d (s ++ t)
  = Js.includes_char d s || Js.includes_char d t.
Proof.
  induction s as [|a s IH]; simpl; [reflexivity|].
  now rewrite IH, orb_assoc.
Qed.

(** Replacing [c] leaves no [c] behind when the replacement has none. *)
Lemma replace_all_removes (s : string) :
  Js.includes_char c rep = false ->
  Js.includes_char c (Js.replace_all c rep s) = false.
Proof.
  intros Hrep. induction s as [|a s IH]; simpl; [reflexivity|].
  destruct (Ascii.eqb a c) eqn:E.
  - now rewrite includes_char_app, Hrep, IH.
  - simpl. now rewrite E, IH.
Qed.

(** A character absent from the string and from the replacement stays
    absent. *)
Lemma replace_all_keeps_out (d : ascii) (s : string) :
  Js.includes_char d rep = false ->
  Js.includes_char d s = false ->
  Js.includes_char d (Js.replace_all c rep s) = false.
Proof.
  intros Hrep. induction s as [|a s IH]; simpl; [reflexivity|].
  intros H. apply orb_false_iff in H as [Ha Hs].
  destruct (Ascii.eqb a c).
  - now rewrite includes_char_app, Hrep, IH.
  - simpl. now rewrite Ha, IH.
Qed.

(** Nothing to replace, nothing changes. *)
Lemma replace_all_absent (s : string) :
  Js.includes_char c s = false -> Js.replace_all c rep s = s.
Proof.
  induction s as [|a s IH]; simpl; [reflexivity|].
  intros H. apply orb_false_iff in H as [Ha Hs].
  now rewrite Ha, IH.
Qed.

End Replace.

(** Chases one character through a chain of replacements. *)
Ltac chase_replacements :=
  repeat first
    [ apply replace_all_removes; reflexivity
    | apply replace_all_keeps_out; [reflexivity|] ].

(** The output of the sanitizer holds none of the five characters. *)
Lemma sanitizeHtml_raw_free (s : string) : raw_free (sanitizeHtml s) = true.
Proof.
  assert (H : forall d, In d unsafe_chars ->
                        Js.includes_char d (sanitizeHtml s) = false).
  { intros d Hd. unfold sanitizeHtml.
    repeat (destruct Hd as [<-|Hd]; [chase_replacements|]).
    destruct Hd. }
  unfold raw_free. apply forallb_forall. intros d Hd.
  now rewrite (H d Hd).
Qed.

(** A string without any of the five characters is left as it is. *)
Lemma sanitizeHtml_fixes_raw_free (s : string) :
  raw_free s = true -> sanitizeHtml s = s.
Proof.
  unfold raw_free, unsafe_chars, sanitizeHtml. simpl.
  rewrite !andb_true_iff, !negb_true_iff.
  intros (H1 & H2 & H3 & H4 & H5 & _).
  rewrite (@replace_all_absent _ "&lt;" _ H1).
  rewrite (@replace_all_absent _ "&gt;" _ H2).
  rewrite (@replace_all_absent _ "&quot;" _ H3).
  rewrite (@replace_all_absent _ "&#x27;" _ H4).
  apply (@replace_all_absent _ "&#x2F;" _ H5).
Qed.

(** C5 (as amended).  The sanitizer is idempotent: it does not escape the
    ampersand, and its output holds none of the five characters it
    escapes, so a second application changes nothing. *)
Theorem sanitizeHtml_idempotent (s : string) :
  sanitizeHtml (sanitizeHtml s) = sanitizeHtml s.
Proof.
  apply sanitizeHtml_fixes_raw_free, sanitizeHtml_raw_free.
Qed.

(** C5 as stated fails: no string is escaped twice by a second
    application. *)
Lemma sanitizeHtml_never_double_escapes :
  ~ (exists s, sanitizeHtml (sanitizeHtml s) <> sanitizeHtml s).
Proof.
  intros [s H]. apply H.
  apply sanitizeHtml_fixes_raw_free, sanitizeHtml_raw_free.
Qed.

Example sanitizeHtml_twice_on_markup :
  sanitizeHtml "<a href='x'>" = "&lt;a href=&#x27;x&#x27;&gt;"
  /\ sanitizeHtml (sanitizeHtml "<a href='x'>")
     = "&lt;a href=&#x27;x&#x27;&gt;".
Proof. split; reflexivity. Qed.

(* ================================================================= *)
(** ** Runs *)

Section Runs.

Context {S : Type} (client : Client S).

Lemma run_await {R : Type} (q : Request) (k : Response q -> Action R)
  (s : S) :
  run client (await q k) s
  = {| result := result (run client (k (fst (client q s)))
                             (snd (client q s)));
       trace := observe q (fst (client q s))
                :: trace (run client (k (fst (client q s)))
                              (snd (client q s)));
       final := final (run client (k (fst (client q s)))
                           (snd (client q s))) |}.
Proof. simpl. now destruct (client q s). Qed.

Lemma run_done {R : Type} (r : R) (s : S) :
  run client (done r) s = {| result := r; trace := []; final := s |}.
Proof. reflexivity. Qed.

End Runs.

(** Steps through the next awaited call of the run in the goal, naming the
    answer of the client. *)
Ltac next_answer x :=
  rewrite run_await;
  match goal with
  | |- context [fst (?client ?q ?s)] =>
      let s' := fresh "s" in
      destruct (client q s) as [x s']
  end;
  cbn [fst snd observe result trace final].

(** Steps through the next call of a run against the in-memory store. *)
Ltac store_answer :=
  rewrite run_await;
  cbn [Store.supabase fst snd observe result trace final].

(** The action has settled: reads off the run. *)
Ltac settled :=
  cbv beta delta [fail ok]; rewrite run_done; cbn [result trace final].

(** Discharges a membership of an event in an explicit trace that cannot
    hold, and leaves the equation of one that does. *)
Ltac find_event H :=
  cbn [In] in H;
  repeat (destruct H as [H|H]; [try discriminate H|]); try contradiction.

(* ================================================================= *)
(** ** submitVote: the poll identifier *)

(** C7.  For every [pollId] that is not a syntactically valid UUID,
    [submitVote] resolves to the error "Invalid poll ID" without having
    awaited any call: no session lookup, no poll lookup, no vote query and
    no insert, whatever the client and whatever the option index. *)
Theorem submitVote_invalid_poll_id
  (S : Type) (client : Client S) (s : S)
  (pollId : string) (optionIndex : Js.number) :
  Zod.uuid pollId = false ->
  let r := run client (submitVote pollId optionIndex) s in
  result r = Resolved (Some "Invalid poll ID")
  /\ trace r = []
  /\ final r = s.
Proof.
  intros H. unfold submitVote, voteSchema. rewrite H. simpl.
  repeat split.
Qed.

(** The test's malformed identifier. *)
Lemma submitVote_invalid_poll_id_witness :
  let w := Sample.world (Sample.signed_in Sample.alice) [] in
  let r := run Store.supabase (submitVote "not-a-uuid" (Js.Integer 0)) w in
  result r = Resolved (Some "Invalid poll ID")
  /\ trace r = []
  /\ final r = w.
Proof.
  intros w.
  apply (@submitVote_invalid_poll_id _ Store.supabase w "not-a-uuid"
           (Js.Integer 0)).
  reflexivity.
Defined.

(* ================================================================= *)
(** ** deletePoll *)

Section DeletePoll.

Context {S : Type} (client : Client S) (s : S).
Variables (env : ProcessEnv) (id : string).

Local Abbreviation r := (run client (deletePoll env id) s).

Lemma deletePoll_fetch_failed (u : User.t) (f : Single string) :
  authenticated_as u (trace r) ->
  In (OwnerSelected id f) (trace r) ->
  error f <> None ->
  result r = Resolved (Some "Poll not found.")
  /\ none_of store_write (trace r).
Proof.
  unfold deletePoll, authenticated_as.
  next_answer a. destruct a as [[v|] [e|]]; cbn [userError user];
    try (settled; intros H; find_event H).
  next_answer g. destruct g as [d [e|]]; cbn [error data].
  - settled. intros _ _ _. split; reflexivity.
  - destruct d as [owner|].
    + destruct (_ && _).
      * settled. intros _ H; find_event H.
        injection H as <-. intros H; now elim H.
      * next_answer x. destruct x.
        -- settled. intros _ H. find_event H.
           injection H as <-. intros H; now elim H.
        -- next_answer y. settled. intros _ H. find_event H.
           injection H as <-. intros H; now elim H.
    + settled. intros _ H. find_event H.
      injection H as <-. intros H; now elim H.
Qed.



End DeletePoll.



(** C10.  When an authenticated identity calls [deletePoll] and the fetch
    of the poll's owner fails (as it does when no poll has the given id),
    the call resolves to the error "Poll not found." and the trace holds no
    write: no delete is issued to the store. *)
Theorem deletePoll_poll_not_found
  (S : Type) (client : Client S) (s : S) (env : ProcessEnv) (id : string)
  (u : User.t) (f : Single string) :
  let r := run client (deletePoll env id) s in
  authenticated_as u (trace r) ->
  In (OwnerSelected id f) (trace r) ->
  error f <> None ->
  result r = Resolved (Some "Poll not found.")
  /\ none_of store_write (trace r)
  /\ none_of is_poll_delete (trace r).
Proof.
  intros r Hu Hf He.
  destruct (deletePoll_fetch_failed client s env id u f Hu Hf He)
    as [Hr Hw].
  repeat split; try assumption.
  unfold none_of in *. rewrite forallb_forall in *.
  intros e Hin. specialize (Hw e Hin). now destruct e.
Qed.

(** alice asks to delete a poll that the store does not hold. *)
Lemma deletePoll_poll_not_found_witness :
  let w := Sample.world (Sample.signed_in Sample.alice) [] in
  let r := run Store.supabase (deletePoll Sample.unset "no-such-poll") w in
  result r = Resolved (Some "Poll not found.")
  /\ none_of store_write (trace r)
  /\ none_of is_poll_delete (trace r).
Proof.
  intros w r.
  apply (deletePoll_poll_not_found Store.supabase w Sample.unset
           "no-such-poll" Sample.alice
           (Store.single (@nil string))).
  - left. reflexivity.
  - right. left. reflexivity.
  - discriminate.
Defined.

(** On the in-memory store the fetch fails exactly when no single row has
    the id; with no such row the store is left as it was. *)
Lemma deletePoll_store_no_such_poll
  (w : Store.World) (env : ProcessEnv) (id : string) (u : User.t) :
  Store.session w = {| user := Some u; userError := None |} ->
  filter (Store.has_id id) (Store.polls w) = [] ->
  let r := run Store.supabase (deletePoll env id) w in
  result r = Resolved (Some "Poll not found.") /\ final r = w.
Proof.
  intros Hs Hnone. unfold deletePoll.
  store_answer. rewrite Hs. cbn [userError user].
  store_answer. rewrite Hnone. cbn [map Store.single error].
  settled. split; reflexivity.
Qed.




(** An identity without an email is looked up under the empty string, so
    an allow-list with an empty entry (the variable set to the empty
    string, or ending in a comma) lets it delete any poll. *)
Example deletePoll_without_email_blank_list :
  let r := run Store.supabase
             (deletePoll Sample.blank Sample.pollId)
             (Sample.world (Sample.signed_in Sample.carol) []) in
  ADMIN_EMAILS Sample.blank = [EmptyString]
  /\ result r = Resolved None
  /\ Store.polls (final r) = [].
Proof. repeat split. Qed.

(* ================================================================= *)
(** ** submitVote: duplicates *)

Section SubmitVote.

Context {S : Type} (client : Client S) (s : S).
Variables (pollId : string) (optionIndex : Js.number).

Local Abbreviation r := (run client (submitVote pollId optionIndex) s).



End SubmitVote.

(** ** submitVote on the in-memory store *)







(* ================================================================= *)
(** ** submitVote: the option index *)

Section OptionIndex.

Context {S : Type} (client : Client S) (s : S).
Variables (pollId : string) (z : Z).

Local Abbreviation r := (run client (submitVote pollId (Js.Integer z)) s).

(** An index at or beyond the number of options of the poll found. *)
Lemma submitVote_index_beyond (poll : IdOptions.t) :
  In (PollSelected pollId {| data := Some poll; error := None |}) (trace r) ->
  (Z.of_nat (List.length (IdOptions.options poll)) <= z)%Z ->
  result r = Resolved (Some "Invalid option selected.")
  /\ none_of store_write (trace r).
Proof.
  unfold submitVote.
  destruct (voteSchema pollId (Js.Integer z)) as [[pid index]|first others]
    eqn:Ev; [| settled; intros H; find_event H ].
  assert (index = z) as ->.
  { unfold voteSchema in Ev.
    destruct (_ ++ _)%list; [| discriminate Ev].
    now injection Ev. }
  next_answer a. next_answer g.
  destruct g as [[p|] [e|]]; cbn [error data];
    try (settled; intros H; find_event H; discriminate H).
  destruct (_ || _) eqn:Ei.
  - settled. intros _ _. split; reflexivity.
  - intros H Hz. exfalso.
    assert (p = poll) as ->.
    { destruct (user a); unfold insert_vote in H; revert H.
      - next_answer v. destruct (data v).
        + settled. intros H. find_event H. now injection H.
        + next_answer x. destruct x as [e|]; [destruct (String.eqb _ _)|];
            settled; intros H; find_event H; now injection H.
      - next_answer x. destruct x as [e|]; [destruct (String.eqb _ _)|];
          settled; intros H; find_event H; now injection H. }
    apply orb_false_iff in Ei as [_ Ei]. apply Z.leb_gt in Ei. lia.
Qed.

End OptionIndex.

(** A number below zero, integer or not, is turned away by the schema,
    before any call. *)
Lemma submitVote_below_zero
  (S : Type) (client : Client S) (s : S)
  (pollId : string) (optionIndex : Js.number) :
  below_zero optionIndex = true ->
  let r := run client (submitVote pollId optionIndex) s in
  exists first others,
    voteSchema pollId optionIndex = Zod.failure first others
    /\ first <> "Invalid option selected."
    /\ result r = Resolved (Some first)
    /\ trace r = [].
Proof.
  intros Hneg r. subst r.
  unfold submitVote, voteSchema, optionIndex_issues.
  destruct optionIndex as [z | negative |]; cbn [below_zero] in Hneg;
    [ rewrite Hneg | rewrite Hneg | discriminate Hneg ];
    destruct (Zod.uuid pollId);
    cbn [negb Zod.check app Zod.of_issues];
    do 2 eexists; (split; [reflexivity|]);
    (split; [discriminate|]); split; reflexivity.
Qed.

(** C6 (as amended).  For every vote request whose option index is an
    integer at or beyond the number of options of the poll that the lookup
    found, [submitVote] resolves to the error "Invalid option selected."
    and issues no write.  An option index below zero, integer or not,
    never reaches that check: the schema rejects the request first, and
    the call resolves to the first message of the schema, which is not
    "Invalid option selected.", before any call, so no vote row is written
    either. *)
Theorem submitVote_option_index
  (S : Type) (client : Client S) (s : S)
  (pollId : string) (optionIndex : Js.number) :
  let r := run client (submitVote pollId optionIndex) s in
  (forall (z : Z) (poll : IdOptions.t),
      optionIndex = Js.Integer z ->
      In (PollSelected pollId {| data := Some poll; error := None |})
         (trace r) ->
      (Z.of_nat (List.length (IdOptions.options poll)) <= z)%Z ->
      result r = Resolved (Some "Invalid option selected.")
      /\ none_of store_write (trace r))
  /\ (below_zero optionIndex = true ->
      exists first others,
        voteSchema pollId optionIndex = Zod.failure first others
        /\ first <> "Invalid option selected."
        /\ result r = Resolved (Some first)
        /\ trace r = []).
Proof.
  intros r. split.
  - intros z poll ->. apply submitVote_index_beyond.
  - intros Hneg. now apply submitVote_below_zero.
Qed.

(** Option 5, option -1 and a negative fraction as option of a poll with
    two options. *)
Lemma submitVote_option_index_witness :
  let w := Sample.world (Sample.signed_in Sample.alice) [] in
  (let r := run Store.supabase (submitVote Sample.pollId (Js.Integer 5)) w in
   result r = Resolved (Some "Invalid option selected.")
   /\ none_of store_write (trace r))
  /\ (let r := run Store.supabase
                 (submitVote Sample.pollId (Js.Integer (-1))) w in
      exists first others,
        voteSchema Sample.pollId (Js.Integer (-1))
        = Zod.failure first others
        /\ first <> "Invalid option selected."
        /\ result r = Resolved (Some first)
        /\ trace r = [])
  /\ (let r := run Store.supabase
                 (submitVote Sample.pollId (Js.NonInteger true)) w in
      exists first others,
        voteSchema Sample.pollId (Js.NonInteger true)
        = Zod.failure first others
        /\ first <> "Invalid option selected."
        /\ result r = Resolved (Some first)
        /\ trace r = []).
Proof.
  intros w. split; [| split].
  - apply (@submitVote_option_index _ Store.supabase w Sample.pollId
             (Js.Integer 5))
      with (z := 5%Z)
           (poll := {| IdOptions.id := Sample.pollId;
                       IdOptions.options := ["Option 1"; "Option 2"] |}).
    + reflexivity.
    + right. left. reflexivity.
    + simpl. lia.
  - apply (@submitVote_option_index _ Store.supabase w Sample.pollId
             (Js.Integer (-1))).
    reflexivity.
  - apply (@submitVote_option_index _ Store.supabase w Sample.pollId
             (Js.NonInteger true)).
    reflexivity.
Defined.

(** C6 as stated fails on the negative indexes: a vote for option -1 of an
    existing poll with two options does not get "Invalid option
    selected."; it is turned away before the poll is looked up. *)
Lemma submitVote_negative_index_other_error :
  let w := Sample.world (Sample.signed_in Sample.alice) [] in
  let r := run Store.supabase (submitVote Sample.pollId (Js.Integer (-1))) w in
  filter (Store.has_id Sample.pollId) (Store.polls w) = [Sample.poll]
  /\ List.length (Poll.options Sample.poll) = 2
  /\ (exists m, result r = Resolved (Some m))
  /\ result r <> Resolved (Some "Invalid option selected.")
  /\ trace r = [].
Proof.
  repeat split; [ eexists; reflexivity | discriminate ].
Qed.

(* ================================================================= *)
(** ** A failed session lookup *)

Section LookupError.

Context {S : Type} (client : Client S) (s : S).
Variables (a : UserResponse) (e : AuthError.t).
Hypothesis lookup_failed : userError a = Some e.

Lemma createPoll_lookup_error (formData : FormData) :
  let r := run client (createPoll formData) s in
  In (GotUser a) (trace r) ->
  result r = Resolved (Some (AuthError.message e))
  /\ none_of store_access (trace r).
Proof.
  unfold createPoll.
  destruct (pollSchema _) as [[q os]|first others];
    [| settled; intros H; find_event H ].
  next_answer b. destruct b as [u [e'|]]; cbn [userError user].
  - settled. intros H. find_event H. injection H as <-.
    cbn [userError] in lookup_failed. injection lookup_failed as ->.
    split; reflexivity.
  - intros H. exfalso. revert H.
    destruct u as [u|]; [| settled; intros H; find_event H;
                           injection H as <-; discriminate lookup_failed ].
    next_answer x. destruct x; [ settled | next_answer y; settled ];
      intros H; find_event H; injection H as <-;
      discriminate lookup_failed.
Qed.

Lemma updatePoll_lookup_error (pollId : string) (formData : FormData) :
  let r := run client (updatePoll pollId formData) s in
  In (GotUser a) (trace r) ->
  result r = Resolved (Some (AuthError.message e))
  /\ none_of store_access (trace r).
Proof.
  unfold updatePoll.
  destruct (get_question formData) as [q|];
    [| settled; intros H; find_event H ].
  destruct (_ || _); [ settled; intros H; find_event H |].
  next_answer b. destruct b as [u [e'|]]; cbn [userError user].
  - settled. intros H. find_event H. injection H as <-.
    cbn [userError] in lookup_failed. injection lookup_failed as ->.
    split; reflexivity.
  - intros H. exfalso. revert H.
    destruct u as [u|]; [| settled; intros H; find_event H;
                           injection H as <-; discriminate lookup_failed ].
    next_answer x. destruct x; settled;
      intros H; find_event H; injection H as <-;
      discriminate lookup_failed.
Qed.

Lemma deletePoll_lookup_error (env : ProcessEnv) (id : string) :
  let r := run client (deletePoll env id) s in
  In (GotUser a) (trace r) ->
  result r = Resolved (Some (AuthError.message e))
  /\ none_of store_access (trace r).
Proof.
  unfold deletePoll.
  next_answer b. destruct b as [u [e'|]]; cbn [userError user].
  - settled. intros H. find_event H. injection H as <-.
    cbn [userError] in lookup_failed. injection lookup_failed as ->.
    split; reflexivity.
  - intros H. exfalso. revert H.
    destruct u as [u|]; [| settled; intros H; find_event H;
                           injection H as <-; discriminate lookup_failed ].
    next_answer f. destruct (error f);
      [ settled; intros H; find_event H; injection H as <-;
        discriminate lookup_failed |].
    destruct (data f);
      [| settled; intros H; find_event H; injection H as <-;
         discriminate lookup_failed ].
    destruct (_ && _);
      [ settled; intros H; find_event H; injection H as <-;
        discriminate lookup_failed |].
    next_answer x. destruct x; [ settled | next_answer y; settled ];
      intros H; find_event H; injection H as <-;
      discriminate lookup_failed.
Qed.

End LookupError.

(** C9 (as amended).  For create, update and delete, when the session
    lookup answers with an error, the action resolves to that error's
    message as it is and no call reaches the store.  The vote is left out:
    [submitVote] does not read the error of the lookup. *)
Theorem lookup_error_returned_verbatim
  (S : Type) (client : Client S) (s : S)
  (env : ProcessEnv) (id : string) (formData : FormData)
  (action : Action Outcome) (a : UserResponse) (e : AuthError.t) :
  action = createPoll formData
  \/ action = updatePoll id formData
  \/ action = deletePoll env id ->
  let r := run client action s in
  In (GotUser a) (trace r) ->
  userError a = Some e ->
  result r = Resolved (Some (AuthError.message e))
  /\ none_of store_access (trace r).
Proof.
  intros [-> | [-> | ->]] r Hin He.
  - eapply createPoll_lookup_error; eassumption.
  - eapply updatePoll_lookup_error; eassumption.
  - eapply deletePoll_lookup_error; eassumption.
Qed.

(** A visitor whose session lookup fails asks to delete the sample poll. *)
Lemma lookup_error_returned_verbatim_witness :
  let w := Sample.world Sample.no_session [] in
  let r := run Store.supabase (deletePoll Sample.unset Sample.pollId) w in
  result r = Resolved (Some "Auth session missing!")
  /\ none_of store_access (trace r).
Proof.
  intros w.
  apply (@lookup_error_returned_verbatim _ Store.supabase w
           Sample.unset Sample.pollId (Sample.form "Pick one?")
           (deletePoll Sample.unset Sample.pollId)
           Sample.no_session {| AuthError.message := "Auth session missing!" |}).
  - right. right. reflexivity.
  - left. reflexivity.
  - reflexivity.
Defined.

(** C9 as stated fails on the vote: with a session lookup that answers
    with an error, [submitVote] goes on as for an anonymous visitor and the
    vote row is written. *)
Lemma submitVote_ignores_lookup_error :
  let w := Sample.world Sample.no_session [] in
  let r := run Store.supabase (submitVote Sample.pollId (Js.Integer 0)) w in
  In (GotUser Sample.no_session) (trace r)
  /\ userError Sample.no_session
     = Some {| AuthError.message := "Auth session missing!" |}
  /\ result r = Resolved None
  /\ In (VoteInserted Sample.pollId None 0 None) (trace r)
  /\ map Vote.user_id (Store.votes (final r)) = [None].
Proof.
  repeat split.
  - left. reflexivity.
  - right. right. left. reflexivity.
Qed.

(* ================================================================= *)
(** ** updatePoll *)

(** X30.  An accepted form of an authenticated user leads to exactly one
    call on the store: the update of the rows with the given id and the
    caller as owner, with the entries of the form as they were read.  The
    answer of the store is the result. *)
Lemma updatePoll_scoped_by_owner
  (S : Type) (client : Client S) (s : S)
  (pollId : string) (formData : FormData)
  (q : string) (os : list string) (u : User.t) :
  well_formed formData q os ->
  let r := run client (updatePoll pollId formData) s in
  authenticated_as u (trace r) ->
  exists e,
    trace r = [GotUser {| user := Some u; userError := None |};
               PollUpdated q os pollId (User.id u) e]
    /\ result r = Resolved (option_map PostgrestError.message e).
Proof.
  intros (Hq & Ht & -> & Hn). unfold updatePoll, authenticated_as.
  rewrite Hq, Ht.
  replace (List.length (filter Js.truthy (getAll_options formData)) <? 2)%nat
    with false by (symmetry; apply Nat.ltb_ge; exact Hn).
  cbn [negb orb].
  next_answer a. destruct a as [[v|] [e|]]; cbn [userError user];
    try (settled; intros H; find_event H).
  next_answer x. destruct x as [e|]; settled; intros H; find_event H;
    injection H as ->; eexists; split; reflexivity.
Qed.

(** An update filtered by an id and an owner that no row has together
    changes no row. *)
Lemma update_matches_no_row
  (pollId uid : string) (change : Poll.t -> Poll.t) (rows : list Poll.t) :
  (forall p, In p rows -> Poll.id p = pollId -> Poll.user_id p <> uid) ->
  map (fun p => if Store.has_id pollId p && Store.owned_by uid p
                then change p else p) rows
  = rows.
Proof.
  induction rows as [|p rows IH]; intros H; simpl; [reflexivity|].
  rewrite IH by (intros p' Hin; apply H; now right).
  unfold Store.has_id, Store.owned_by.
  destruct (String.eqb_spec (Poll.id p) pollId) as [Hid|_];
    [| reflexivity ].
  destruct (String.eqb_spec (Poll.user_id p) uid) as [Hown|_];
    [| reflexivity ].
  now elim (H p (or_introl eq_refl) Hid).
Qed.

(** C8.  When an authenticated identity that does not own the poll calls
    [updatePoll] with a well-formed form, the call resolves to
    [{ error: null }] and the store is left as it was: the only call on the
    store is the update filtered by the poll id and by the caller's id as
    owner, which matches no row, and no denial is returned. *)
Theorem updatePoll_by_non_owner
  (w : Store.World) (pollId : string) (formData : FormData)
  (q : string) (os : list string) (u : User.t) :
  well_formed formData q os ->
  Store.session w = {| user := Some u; userError := None |} ->
  (forall p, In p (Store.polls w) ->
             Poll.id p = pollId -> Poll.user_id p <> User.id u) ->
  let r := run Store.supabase (updatePoll pollId formData) w in
  result r = Resolved None
  /\ trace r = [GotUser {| user := Some u; userError := None |};
                PollUpdated q os pollId (User.id u) None]
  /\ final r = w.
Proof.
  intros (Hq & Ht & -> & Hn) Hs Hother. unfold updatePoll.
  rewrite Hq, Ht.
  replace (List.length (filter Js.truthy (getAll_options formData)) <? 2)%nat
    with false by (symmetry; apply Nat.ltb_ge; exact Hn).
  cbn [negb orb].
  store_answer. rewrite Hs. cbn [userError user].
  store_answer. settled.
  repeat split.
  unfold Store.with_tables.
  rewrite update_matches_no_row by exact Hother.
  now destruct w.
Qed.

(** bob sends a new question for the poll of alice. *)
Lemma updatePoll_by_non_owner_witness :
  let w := Sample.world (Sample.signed_in Sample.bob) [] in
  let r := run Store.supabase
             (updatePoll Sample.pollId (Sample.form "Mine now?")) w in
  result r = Resolved None
  /\ trace r = [GotUser (Sample.signed_in Sample.bob);
                PollUpdated "Mine now?" ["A"; "B"] Sample.pollId
                  "user456" None]
  /\ final r = w.
Proof.
  intros w.
  apply (@updatePoll_by_non_owner w Sample.pollId (Sample.form "Mine now?")
           "Mine now?" ["A"; "B"] Sample.bob).
  - repeat split. simpl. lia.
  - reflexivity.
  - intros p [<- | []] _. discriminate.
Defined.

(* ================================================================= *)
(** ** What reaches the store from a form *)

Lemma forallb_map_sanitizeHtml (os : list string) :
  forallb raw_free (map sanitizeHtml os) = true.
Proof.
  induction os as [|o os IH]; simpl; [reflexivity|].
  now rewrite sanitizeHtml_raw_free, IH.
Qed.

(** X28.  [createPoll] inserts the trimmed entries of the form escaped
    once; the inserted question and options hold none of the five
    characters. *)
Lemma createPoll_inserts_sanitized
  (S : Type) (client : Client S) (s : S) (formData : FormData)
  (u q : string) (os : list string) (e : option PostgrestError.t) :
  In (PollInserted u q os e) (trace (run client (createPoll formData) s)) ->
  (exists raw, get_question formData = Some raw
               /\ q = sanitizeHtml (Js.trim raw))
  /\ os = map sanitizeHtml
            (map Js.trim (filter Js.truthy (getAll_options formData)))
  /\ raw_free q = true
  /\ forallb raw_free os = true.
Proof.
  unfold createPoll, pollSchema. cbn [question options].
  destruct (question_issues (get_question formData) ++ _)%list eqn:Ei;
    cbn [Zod.of_issues]; [| settled; intros H; find_event H ].
  destruct (get_question formData) as [raw|] eqn:Eq;
    [| discriminate Ei ].
  next_answer a. destruct a as [[v|] [e'|]]; cbn [userError user];
    try (settled; intros H; find_event H).
  next_answer x.
  destruct x; [ settled | next_answer y; settled ];
    intros H; find_event H; injection H as _ <- <- _;
    (split; [ exists raw; split; reflexivity |]);
    (split; [ reflexivity |]);
    (split; [ apply sanitizeHtml_raw_free
            | apply forallb_map_sanitizeHtml ]).
Qed.

(** X29.  [createPoll] turns away a question of more than 500 characters
    before any call. *)
Lemma createPoll_rejects_long_question
  (S : Type) (client : Client S) (s : S) (formData : FormData) (q : string) :
  get_question formData = Some q ->
  500 < String.length q ->
  let r := run client (createPoll formData) s in
  result r = Resolved (Some "Question must be less than 500 characters")
  /\ trace r = [].
Proof.
  intros Hq Hlen. unfold createPoll, pollSchema, question_issues.
  cbn [question options]. rewrite Hq.
  replace (String.length q <? 1)%nat with false
    by (symmetry; apply Nat.ltb_ge; lia).
  replace (500 <? String.length q)%nat with true
    by (symmetry; apply Nat.ltb_lt; lia).
  cbn [Zod.check app Zod.of_issues]. split; reflexivity.
Qed.

(** C3, evaluated where it fails.  alice updates her poll with a question
    and an option that hold markup: the update that reaches the store
    carries them raw, and so does the row afterwards, whereas [createPoll]
    escapes the same form. *)
Theorem updatePoll_stores_raw_markup :
  let formData := {| get_question := Some "<script>alert(1)</script>Pick one?";
                     getAll_options := ["A"; "<img src=x>B"] |} in
  let w := Sample.world (Sample.signed_in Sample.alice) [] in
  let r := run Store.supabase (updatePoll Sample.pollId formData) w in
  result r = Resolved None
  /\ trace r = [GotUser (Sample.signed_in Sample.alice);
                PollUpdated "<script>alert(1)</script>Pick one?"
                  ["A"; "<img src=x>B"] Sample.pollId "user123" None]
  /\ raw_free "<script>alert(1)</script>Pick one?" = false
  /\ map Poll.question (Store.polls (final r))
     = ["<script>alert(1)</script>Pick one?"]
  /\ trace (run Store.supabase (createPoll formData) w)
     = [GotUser (Sample.signed_in Sample.alice);
        PollInserted "user123"
          "&lt;script&gt;alert(1)&lt;&#x2F;script&gt;Pick one?"
          ["A"; "&lt;img src=x&gt;B"] None;
        Revalidated "/polls"].
Proof.
  vm_compute. repeat split.
Qed.

(** C4, evaluated where it fails.  alice updates her poll with a question
    of 501 characters: [updatePoll] sends it to the store and resolves
    without an error, whereas [createPoll] rejects the same form. *)
Theorem updatePoll_accepts_long_question :
  let q := repeat_char "a" 501 in
  let w := Sample.world (Sample.signed_in Sample.alice) [] in
  let r := run Store.supabase (updatePoll Sample.pollId (Sample.form q)) w in
  String.length q = 501
  /\ result r = Resolved None
  /\ trace r = [GotUser (Sample.signed_in Sample.alice);
                PollUpdated q ["A"; "B"] Sample.pollId "user123" None]
  /\ map Poll.question (Store.polls (final r)) = [q]
  /\ result (run Store.supabase (createPoll (Sample.form q)) w)
     = Resolved (Some "Question must be less than 500 characters").
Proof.
  vm_compute. repeat split.
Qed.

(* ================================================================= *)
(** ** The scenarios of the repository's tests, on the in-memory store *)

Example createPoll_insufficient_options :
  result (run Store.supabase
            (createPoll {| get_question := Some "Valid question?";
                           getAll_options := ["Only one option"] |})
            (Sample.world (Sample.signed_in Sample.alice) []))
  = Resolved (Some "At least 2 options are required").
Proof. reflexivity. Qed.

Example createPoll_too_many_options :
  result (run Store.supabase
            (createPoll {| get_question := Some "Valid question?";
                           getAll_options :=
                             ["1"; "2"; "3"; "4"; "5"; "6"; "7"; "8"; "9";
                              "10"; "11"] |})
            (Sample.world (Sample.signed_in Sample.alice) []))
  = Resolved (Some "Maximum 10 options allowed").
Proof. reflexivity. Qed.

Example createPoll_unauthenticated :
  let w := Sample.world {| user := None; userError := None |} [] in
  let r := run Store.supabase (createPoll (Sample.form "Valid question?")) w in
  result r = Resolved (Some "You must be logged in to create a poll.")
  /\ final r = w.
Proof. split; reflexivity. Qed.

(** alice votes for option 0, then for option 1: one row remains. *)
Example submitVote_twice :
  let w := Sample.world (Sample.signed_in Sample.alice) [] in
  let first := run Store.supabase
                 (submitVote Sample.pollId (Js.Integer 0)) w in
  let second := run Store.supabase
                  (submitVote Sample.pollId (Js.Integer 1)) (final first) in
  result first = Resolved None
  /\ result second = already_voted
  /\ map Vote.option_index (Store.votes (final second)) = [0%Z].
Proof. repeat split. Qed.

(** A vote without a session is recorded without a voter, twice over. *)
Example submitVote_anonymous_twice :
  let w := Sample.world {| user := None; userError := None |} [] in
  let first := run Store.supabase
                 (submitVote Sample.pollId (Js.Integer 0)) w in
  let second := run Store.supabase
                  (submitVote Sample.pollId (Js.Integer 0)) (final first) in
  result second = Resolved None
  /\ map Vote.user_id (Store.votes (final second)) = [None; None].
Proof. repeat split. Qed.

(* ================================================================= *)
(** * Further properties *)

(** ** The sanitizer, character by character *)

Lemma append_length (a b : string) :
  String.length (a ++ b) = String.length a + String.length b.
Proof.
  induction a as [|x a IH]; simpl; [reflexivity | now rewrite IH].
Qed.

Lemma append_assoc (a b c : string) : (a ++ b) ++ c = a ++ (b ++ c).
Proof.
  induction a as [|x a IH]; simpl; [reflexivity | now rewrite IH].
Qed.

Lemma replace_all_app (c : ascii) (rep a b : string) :
  Js.replace_all c rep (a ++ b)
  = Js.replace_all c rep a ++ Js.replace_all c rep b.
Proof.
  induction a as [|x a IH]; simpl; [reflexivity|].
  rewrite IH. destruct (Ascii.eqb x c); [| reflexivity].
  now rewrite append_assoc.
Qed.

Lemma sanitizeHtml_char (a : ascii) :
  sanitizeHtml (String a EmptyString) = escape_char a.
Proof.
  destruct a as [[] [] [] [] [] [] [] []]; reflexivity.
Qed.

Lemma sanitizeHtml_cons (a : ascii) (s : string) :
  sanitizeHtml (String a s) = escape_char a ++ sanitizeHtml s.
Proof.
  rewrite <- sanitizeHtml_char.
  change (String a s) with (String a EmptyString ++ s).
  unfold sanitizeHtml. now rewrite !replace_all_app.
Qed.

Lemma escape_char_length (a : ascii) :
  1 <= String.length (escape_char a) <= 6.
Proof.
  unfold escape_char.
  repeat match goal with
         | |- context [if ?b then _ else _] => destruct b
         end; simpl; lia.
Qed.

(** X1.  The five successive replacements of [sanitizeHtml] amount to one
    pass that escapes each character on its own: no replacement rewrites
    what an earlier one produced. *)
Theorem sanitizeHtml_is_one_pass_escape (s : string) :
  sanitizeHtml s = escape s.
Proof.
  induction s as [|a s IH]; [reflexivity|].
  rewrite sanitizeHtml_cons, IH. reflexivity.
Qed.

(** X2.  [sanitizeHtml] distributes over concatenation: escaping the parts
    and joining them is escaping the whole. *)
Theorem sanitizeHtml_append (a b : string) :
  sanitizeHtml (a ++ b) = sanitizeHtml a ++ sanitizeHtml b.
Proof.
  unfold sanitizeHtml. now rewrite !replace_all_app.
Qed.

(** X3.  The strings that [sanitizeHtml] leaves as they are are exactly
    those without any of the five characters. *)
Theorem sanitizeHtml_fixed_point_iff (s : string) :
  sanitizeHtml s = s <-> raw_free s = true.
Proof.
  split.
  - intros H. rewrite <- H. apply sanitizeHtml_raw_free.
  - apply sanitizeHtml_fixes_raw_free.
Qed.

(** X4.  Escaping never shortens a string and makes it at most six times
    as long. *)
Theorem sanitizeHtml_length (s : string) :
  String.length s <= String.length (sanitizeHtml s) <= 6 * String.length s.
Proof.
  induction s as [|a s IH]; [simpl; lia|].
  rewrite sanitizeHtml_cons, append_length.
  pose proof (escape_char_length a). simpl String.length. lia.
Qed.

(* ================================================================= *)
(** ** What the schemas accept *)

Lemma of_issues_success {A : Type} (issues : list string) (d d' : A) :
  Zod.of_issues issues d = Zod.success d' <-> issues = [] /\ d = d'.
Proof.
  destruct issues; simpl; split.
  - intros H. injection H as ->. now split.
  - intros [_ ->]. reflexivity.
  - discriminate.
  - intros [H _]. discriminate H.
Qed.

Lemma app_eq_nil_iff {A : Type} (l l' : list A) :
  (l ++ l')%list = [] <-> l = [] /\ l' = [].
Proof.
  split; [apply app_eq_nil | now intros [-> ->]].
Qed.

Lemma check_nil (violated : bool) (message : string) :
  Zod.check violated message = [] <-> violated = false.
Proof. destruct violated; simpl; split; congruence. Qed.

Lemma option_issues_nil (o : string) :
  option_issues o = [] <-> option_length_ok o.
Proof.
  unfold option_issues, option_length_ok.
  rewrite app_eq_nil_iff, !check_nil, Nat.ltb_ge, Nat.ltb_ge. lia.
Qed.

Lemma options_issues_nil (os : list string) :
  options_issues os = []
  <-> 2 <= List.length os <= 10 /\ Forall option_length_ok os.
Proof.
  unfold options_issues.
  rewrite !app_eq_nil_iff, !check_nil, Nat.ltb_ge, Nat.ltb_ge.
  assert (concat (map option_issues os) = [] <-> Forall option_length_ok os)
    as ->.
  { induction os as [|o os IH]; simpl.
    - split; [constructor | reflexivity].
    - rewrite app_eq_nil_iff, option_issues_nil, IH. split.
      + intros [Ho Hos]. now constructor.
      + intros H. now inversion H. }
  intuition lia.
Qed.

Lemma question_issues_nil (q : option string) :
  question_issues q = [] <-> exists s, q = Some s /\ question_length_ok s.
Proof.
  unfold question_issues, question_length_ok.
  destruct q as [s|].
  - rewrite app_eq_nil_iff, !check_nil, Nat.ltb_ge, Nat.ltb_ge. split.
    + intros H. exists s. split; [reflexivity | lia].
    + intros (s' & [= <-] & H). lia.
  - split; [discriminate | intros (s & H & _); discriminate H].
Qed.

(** [pollSchema] accepts exactly the inputs with a question of 1 to 500
    characters and 2 to 10 options of 1 to 200 characters each, the
    lengths being those before trimming; its data are the trimmed
    strings. *)
Lemma pollSchema_success (input : PollInput) (d : string * list string) :
  pollSchema input = Zod.success d
  <-> exists q,
        question input = Some q
        /\ question_length_ok q
        /\ 2 <= List.length (options input) <= 10
        /\ Forall option_length_ok (options input)
        /\ d = (Js.trim q, map Js.trim (options input)).
Proof.
  unfold pollSchema.
  rewrite of_issues_success, app_eq_nil_iff, question_issues_nil,
    options_issues_nil.
  split.
  - intros [[(q & Hq & Hlen) [Hn Hos]] <-]. exists q. rewrite Hq.
    repeat split; solve [assumption | lia | apply Hlen].
  - intros (q & Hq & Hlen & Hn & Hos & ->). rewrite Hq.
    repeat split; try solve [assumption | lia]. now exists q.
Qed.

(** [voteSchema] accepts exactly a UUID with an integer that is not
    negative, and hands both back unchanged. *)
Lemma voteSchema_success (pollId : string) (n : Js.number) (d : string * Z) :
  voteSchema pollId n = Zod.success d
  <-> Zod.uuid pollId = true
      /\ exists i, n = Js.Integer i /\ (0 <= i)%Z /\ d = (pollId, i).
Proof.
  unfold voteSchema.
  rewrite of_issues_success, app_eq_nil_iff, check_nil, negb_false_iff.
  destruct n as [z|neg|]; cbn [optionIndex_issues].
  - rewrite check_nil, Z.ltb_ge. split.
    + intros [[Hu Hz] <-]. split; [assumption|]. now exists z.
    + intros (Hu & i & [= <-] & Hi & ->). repeat split; assumption.
  - split.
    + intros [[_ H] _]. discriminate H.
    + intros (_ & i & H & _). discriminate H.
  - split.
    + intros [[_ H] _]. discriminate H.
    + intros (_ & i & H & _). discriminate H.
Qed.

(* ================================================================= *)
(** ** Every path of an action *)

(** Follows a run down every path of the action: at each awaited call the
    answer is arbitrary, at each branch both sides are taken. *)
Ltac explore :=
  cbv beta delta [fail ok insert_vote];
  repeat match goal with
    | |- context [run _ (await _ _) _] =>
        let x := fresh "x" in next_answer x
    | |- context [run _ (match ?c with _ => _ end) _] =>
        destruct c eqn:?; cbv beta iota
    | |- context [run _ (done _) _] =>
        rewrite run_done; cbn [result trace final]
    end.

(** Splits the answers of the client into their fields. *)
Ltac open_answers :=
  repeat match goal with
    | x : Response _ |- _ => cbn [Response] in x
    | x : UserResponse |- _ => destruct x
    | x : Single _ |- _ => destruct x
    end;
  cbn [user userError data error] in *; subst.

(** X5.  Whatever the client answers, each of the four actions asks the
    store for at most one write in a call. *)
Theorem at_most_one_write
  (S : Type) (client : Client S) (s : S) (action : Action Outcome) :
  one_of_the_actions action ->
  List.length (writes (trace (run client action s))) <= 1.
Proof.
  intros [formData | pollId optionIndex | env id | pollId formData].
  - unfold createPoll. explore; cbn; lia.
  - unfold submitVote. explore; cbn; lia.
  - unfold deletePoll. explore; cbn; lia.
  - unfold updatePoll. explore; cbn; lia.
Qed.

(** A call of an action that the sample store serves without a write. *)
Lemma at_most_one_write_witness :
  List.length
    (writes (trace (run Store.supabase
                      (deletePoll Sample.unset Sample.pollId)
                      (Sample.world (Sample.signed_in Sample.alice) []))))
  <= 1.
Proof.
  apply (@at_most_one_write _ Store.supabase
           (Sample.world (Sample.signed_in Sample.alice) [])
           (deletePoll Sample.unset Sample.pollId)).
  constructor.
Defined.

(** X7.  [deletePoll] rejects (with the TypeError of reading [user_id] of
    [null]) exactly when the fetch of the owner answered with neither an
    error nor a row, and then it has asked for no write. *)
Theorem deletePoll_rejects_iff
  (S : Type) (client : Client S) (s : S) (env : ProcessEnv) (id : string) :
  let r := run client (deletePoll env id) s in
  (result r = Rejected_TypeError
   <-> In (OwnerSelected id {| data := None; error := None |}) (trace r))
  /\ (result r = Rejected_TypeError -> none_of store_write (trace r)).
Proof.
  intros r. subst r. unfold deletePoll.
  explore; open_answers;
    (split; [ split; intros H;
              [ try discriminate H; right; left; reflexivity
              | find_event H; reflexivity ]
            | intros H; try discriminate H; reflexivity ]).
Qed.

(** A fetch that answers with neither a row nor an error, as a mocked
    [single] does. *)
Lemma deletePoll_rejects_iff_witness :
  let bare : Client unit :=
    fun q =>
      match q return unit -> Response q * unit with
      | auth_getUser => fun u => (Sample.signed_in Sample.alice, u)
      | polls_select_id_options _ | polls_select_user_id _
      | votes_select_id _ _ =>
          fun u => ({| data := None; error := None |}, u)
      | polls_insert _ _ _ | polls_delete _ | polls_update _ _ _ _
      | votes_insert _ _ _ => fun u => (None, u)
      | revalidatePath _ => fun u => (tt, u)
      end in
  none_of store_write
    (trace (run bare (deletePoll Sample.unset Sample.pollId) tt)).
Proof.
  intros bare.
  apply (@deletePoll_rejects_iff _ bare tt Sample.unset Sample.pollId).
  reflexivity.
Defined.

(* ================================================================= *)
(** ** Revalidation of the listing *)

(** X8.  [createPoll] and [deletePoll] revalidate the listing exactly when
    the store accepted their write, and only then: a revalidation is of
    the path "/polls" and the call resolves without an error. *)
Theorem revalidation_follows_accepted_write
  (S : Type) (client : Client S) (s : S)
  (formData : FormData) (env : ProcessEnv) (id : string)
  (action : Action Outcome) :
  action = createPoll formData \/ action = deletePoll env id ->
  let r := run client action s in
  existsb is_revalidation (trace r)
  = existsb poll_write_accepted (trace r)
  /\ (forall path, In (Revalidated path) (trace r) ->
                   path = "/polls" /\ result r = Resolved None).
Proof.
  intros [-> | ->] r; subst r.
  - unfold createPoll.
    explore; (split; [ reflexivity | intros path H; find_event H ]);
      injection H as <-; split; reflexivity.
  - unfold deletePoll.
    explore; (split; [ reflexivity | intros path H; find_event H ]);
      injection H as <-; split; reflexivity.
Qed.

(** alice creates a poll on the sample store. *)
Lemma revalidation_follows_accepted_write_witness :
  let r := run Store.supabase (createPoll (Sample.form "Pick one?"))
             (Sample.world (Sample.signed_in Sample.alice) []) in
  existsb is_revalidation (trace r) = true
  /\ result r = Resolved None.
Proof.
  intros r.
  destruct (@revalidation_follows_accepted_write _ Store.supabase
              (Sample.world (Sample.signed_in Sample.alice) [])
              (Sample.form "Pick one?") Sample.unset Sample.pollId
              (createPoll (Sample.form "Pick one?"))
              (or_introl eq_refl)) as [same only].
  split.
  - reflexivity.
  - apply (only "/polls"). right. right. left. reflexivity.
Defined.

(** X9.  [updatePoll] and [submitVote] never revalidate the listing, not
    even after a write that the store accepted. *)
Theorem update_and_vote_never_revalidate
  (S : Type) (client : Client S) (s : S)
  (pollId : string) (optionIndex : Js.number) (formData : FormData) :
  none_of is_revalidation (trace (run client (updatePoll pollId formData) s))
  /\ none_of is_revalidation
       (trace (run client (submitVote pollId optionIndex) s)).
Proof.
  split.
  - unfold updatePoll. explore; reflexivity.
  - unfold submitVote. explore; reflexivity.
Qed.

(* ================================================================= *)
(** ** createPoll *)

Lemma trimEnd_length (s : string) :
  String.length (Js.trimEnd s) <= String.length s.
Proof.
  induction s as [|a s IH]; simpl; [lia|].
  destruct (Js.trimEnd s); [destruct (Js.is_white_space a)|];
    simpl in *; lia.
Qed.

Lemma trimStart_length (s : string) :
  String.length (Js.trimStart s) <= String.length s.
Proof.
  induction s as [|a s IH]; simpl; [lia|].
  destruct (Js.is_white_space a); simpl; lia.
Qed.

Lemma trim_length (s : string) :
  String.length (Js.trim s) <= String.length s.
Proof.
  unfold Js.trim.
  pose proof (trimEnd_length (Js.trimStart s)).
  pose proof (trimStart_length s). lia.
Qed.


Lemma sanitizeHtml_length_le (s : string) :
  String.length (sanitizeHtml s) <= 6 * String.length s.
Proof.
  induction s as [|a s IH]; [simpl; lia|].
  rewrite sanitizeHtml_cons, append_length.
  pose proof (escape_char_length a). simpl String.length. lia.
Qed.

(** X10.  [createPoll] awaits a call exactly when the form is acceptable:
    a question of 1 to 500 characters and, once the empty option entries
    are dropped, 2 to 10 options of at most 200 characters.  A form that
    is not acceptable gets an error without any call. *)
Theorem createPoll_calls_iff_form_accepted
  (S : Type) (client : Client S) (s : S) (formData : FormData) :
  let os := filter Js.truthy (getAll_options formData) in
  let r := run client (createPoll formData) s in
  (trace r <> []
   <-> exists q, get_question formData = Some q
                 /\ question_length_ok q
                 /\ 2 <= List.length os <= 10
                 /\ Forall option_length_ok os)
  /\ (trace r = [] -> exists m, result r = Resolved (Some m)).
Proof.
  intros os r. subst r os. unfold createPoll.
  destruct (pollSchema _) as [[vq vos]|first others] eqn:E.
  - apply pollSchema_success in E as (q & Hq & Hlen & Hn & Hos & _).
    cbn [question options] in *.
    next_answer x. split; [split|].
    + intros _. exists q. repeat split; solve [assumption | apply Hlen | lia].
    + discriminate.
    + discriminate.
  - settled. split; [split|].
    + intros H. now elim H.
    + intros (q & Hq & Hlen & Hn & Hos). exfalso.
      assert (pollSchema
                {| question := get_question formData;
                   options := filter Js.truthy (getAll_options formData) |}
              = Zod.success
                  (Js.trim q,
                   map Js.trim
                     (filter Js.truthy (getAll_options formData)))) as Hok.
      { apply pollSchema_success. exists q. cbn [question options].
        repeat split; solve [assumption | apply Hlen | lia]. }
      rewrite Hok in E. discriminate E.
    + intros _. now exists first.
Qed.

(** A question of exactly 500 characters is acceptable. *)
Lemma createPoll_calls_iff_form_accepted_witness :
  trace (run Store.supabase
           (createPoll (Sample.form (repeat_char "a" 500)))
           (Sample.world (Sample.signed_in Sample.alice) []))
  <> [].
Proof.
  apply (@createPoll_calls_iff_form_accepted _ Store.supabase
           (Sample.world (Sample.signed_in Sample.alice) [])
           (Sample.form (repeat_char "a" 500))).
  exists (repeat_char "a" 500).
  split; [reflexivity|].
  split; [vm_compute; split; apply Nat.leb_le; reflexivity|].
  split; [simpl; lia|].
  repeat constructor.
Defined.

(** X11.  With an acceptable question, [createPoll] counts the option
    entries that are not empty: fewer than two get "At least 2 options are
    required", more than ten get "Maximum 10 options allowed", in both
    cases without any call. *)
Theorem createPoll_option_count
  (S : Type) (client : Client S) (s : S) (formData : FormData)
  (q : string) :
  get_question formData = Some q ->
  question_length_ok q ->
  let n := List.length (filter Js.truthy (getAll_options formData)) in
  let r := run client (createPoll formData) s in
  (n < 2 ->
   result r = Resolved (Some "At least 2 options are required")
   /\ trace r = [])
  /\ (10 < n ->
      result r = Resolved (Some "Maximum 10 options allowed")
      /\ trace r = []).
Proof.
  intros Hq [Hmin Hmax] n r. subst r.
  unfold createPoll, pollSchema, question_issues, options_issues.
  cbn [question options]. rewrite Hq. fold n.
  replace (String.length q <? 1)%nat with false
    by (symmetry; apply Nat.ltb_ge; lia).
  replace (500 <? String.length q)%nat with false
    by (symmetry; apply Nat.ltb_ge; lia).
  cbn [Zod.check app]. split; intros Hn.
  - replace (n <? 2)%nat with true by (symmetry; apply Nat.ltb_lt; lia).
    cbn [Zod.check app Zod.of_issues]. split; reflexivity.
  - replace (n <? 2)%nat with false by (symmetry; apply Nat.ltb_ge; lia).
    replace (10 <? n)%nat with true by (symmetry; apply Nat.ltb_lt; lia).
    cbn [Zod.check app Zod.of_issues]. split; reflexivity.
Qed.

(** Two entries of which one is empty are one option. *)
Lemma createPoll_option_count_witness :
  let formData := {| get_question := Some "Valid question?";
                     getAll_options := ["Only one option"; EmptyString] |} in
  let r := run Store.supabase (createPoll formData)
             (Sample.world (Sample.signed_in Sample.alice) []) in
  result r = Resolved (Some "At least 2 options are required")
  /\ trace r = [].
Proof.
  intros formData r.
  apply (@createPoll_option_count _ Store.supabase
           (Sample.world (Sample.signed_in Sample.alice) [])
           formData "Valid question?").
  - reflexivity.
  - split; simpl; lia.
  - simpl. lia.
Defined.



(** X13.  Every poll that [createPoll] asks the store to insert belongs to
    the user that the session lookup answered with (and answered without
    an error); it has 2 to 10 options, a question of at most 3000
    characters and options of at most 1200 characters each, the escaped
    forms of at most 500 and 200. *)
Theorem createPoll_inserted_row
  (S : Type) (client : Client S) (s : S) (formData : FormData)
  (uid q : string) (os : list string) (e : option PostgrestError.t) :
  let r := run client (createPoll formData) s in
  In (PollInserted uid q os e) (trace r) ->
  (exists u, authenticated_as u (trace r) /\ uid = User.id u)
  /\ String.length q <= 3000
  /\ 2 <= List.length os <= 10
  /\ Forall (fun o => String.length o <= 1200) os.
Proof.
  intros r. subst r. unfold createPoll, authenticated_as.
  destruct (pollSchema _) as [[vq vos]|first others] eqn:E;
    [| settled; intros H; find_event H ].
  apply pollSchema_success in E
    as (q0 & Hq & [_ Hlen] & Hn & Hos & [= -> ->]).
  cbn [question options] in *.
  assert (String.length (sanitizeHtml (Js.trim q0)) <= 3000) as Hsize.
  { pose proof (sanitizeHtml_length_le (Js.trim q0)).
    pose proof (trim_length q0). lia. }
  assert (Forall (fun o => String.length o <= 1200)
            (map sanitizeHtml
               (map Js.trim (filter Js.truthy (getAll_options formData)))))
    as Hsizes.
  { rewrite map_map. apply Forall_map.
    eapply Forall_impl; [| exact Hos].
    intros o [_ Ho]. cbv beta.
    pose proof (sanitizeHtml_length_le (Js.trim o)).
    pose proof (trim_length o). lia. }
  explore; open_answers; intros H; find_event H;
    injection H as <- <- <- _;
    (split; [ eexists; split; [ left; reflexivity | reflexivity ] |]);
    (split; [ exact Hsize |]);
    (split; [ now rewrite !length_map | exact Hsizes ]).
Qed.

(** alice creates a poll on the sample store. *)
Lemma createPoll_inserted_row_witness :
  let r := run Store.supabase (createPoll (Sample.form "Pick one?"))
             (Sample.world (Sample.signed_in Sample.alice) []) in
  (exists u, authenticated_as u (trace r) /\ "user123" = User.id u)
  /\ String.length "Pick one?" <= 3000
  /\ 2 <= List.length ["A"; "B"] <= 10
  /\ Forall (fun o => String.length o <= 1200) ["A"; "B"].
Proof.
  intros r.
  apply (@createPoll_inserted_row _ Store.supabase
           (Sample.world (Sample.signed_in Sample.alice) [])
           (Sample.form "Pick one?") "user123" "Pick one?" ["A"; "B"] None).
  right. left. reflexivity.
Defined.

(** Markup in a new poll of alice reaches the store escaped. *)
Lemma createPoll_inserts_sanitized_witness :
  raw_free "&lt;b&gt;Pick one?" = true
  /\ forallb raw_free ["A"; "B"] = true.
Proof.
  apply (@createPoll_inserts_sanitized _ Store.supabase
           (Sample.world (Sample.signed_in Sample.alice) [])
           (Sample.form "<b>Pick one?") "user123" "&lt;b&gt;Pick one?"
           ["A"; "B"] None).
  right. left. reflexivity.
Defined.

(** The test's question of 501 characters. *)
Lemma createPoll_rejects_long_question_witness :
  let r := run Store.supabase
             (createPoll (Sample.form (repeat_char "a" 501)))
             (Sample.world (Sample.signed_in Sample.alice) []) in
  result r = Resolved (Some "Question must be less than 500 characters")
  /\ trace r = [].
Proof.
  intros r.
  apply (@createPoll_rejects_long_question _ Store.supabase
           (Sample.world (Sample.signed_in Sample.alice) [])
           (Sample.form (repeat_char "a" 501)) (repeat_char "a" 501)).
  - reflexivity.
  - apply Nat.ltb_lt. vm_compute. reflexivity.
Defined.

(* ================================================================= *)
(** ** Callers without a session *)

(** X14.  When the session lookup answers with neither a user nor an
    error, [createPoll], [updatePoll] and [deletePoll] resolve to "You
    must be logged in to (create, update, delete) a poll." and no call
    reaches the store. *)
Theorem anonymous_must_log_in
  (S : Type) (client : Client S) (s : S)
  (env : ProcessEnv) (id : string) (formData : FormData)
  (action : Action Outcome) (verb : string) (a : UserResponse) :
  (action = createPoll formData /\ verb = "create")
  \/ (action = updatePoll id formData /\ verb = "update")
  \/ (action = deletePoll env id /\ verb = "delete") ->
  let r := run client action s in
  In (GotUser a) (trace r) ->
  user a = None ->
  userError a = None ->
  result r
  = Resolved (Some ("You must be logged in to " ++ verb ++ " a poll."))
  /\ none_of store_access (trace r).
Proof.
  intros [[-> ->] | [[-> ->] | [-> ->]]] r; subst r;
    [ unfold createPoll | unfold updatePoll | unfold deletePoll ];
    explore; intros H Hu He; find_event H; try (split; reflexivity);
    injection H as <-; congruence.
Qed.

(** The test's caller without a session. *)
Lemma anonymous_must_log_in_witness :
  let w := Sample.world {| user := None; userError := None |} [] in
  let r := run Store.supabase (createPoll (Sample.form "Valid question?")) w in
  result r = Resolved (Some "You must be logged in to create a poll.")
  /\ none_of store_access (trace r).
Proof.
  intros w.
  apply (@anonymous_must_log_in _ Store.supabase w Sample.unset
           Sample.pollId (Sample.form "Valid question?")
           (createPoll (Sample.form "Valid question?")) "create"
           {| user := None; userError := None |}).
  - left. split; reflexivity.
  - left. reflexivity.
  - reflexivity.
  - reflexivity.
Defined.

(* ================================================================= *)
(** ** submitVote *)

(** X15.  [submitVote] awaits a call exactly when the poll id is a UUID
    and the option index an integer that is not negative; otherwise it
    resolves to an error without any call. *)
Theorem submitVote_calls_iff_request_accepted
  (S : Type) (client : Client S) (s : S)
  (pollId : string) (optionIndex : Js.number) :
  let r := run client (submitVote pollId optionIndex) s in
  (trace r <> []
   <-> Zod.uuid pollId = true
       /\ exists i, optionIndex = Js.Integer i /\ (0 <= i)%Z)
  /\ (trace r = [] -> exists m, result r = Resolved (Some m)).
Proof.
  intros r. subst r. unfold submitVote.
  destruct (voteSchema pollId optionIndex) as [[p i]|first others] eqn:E.
  - apply voteSchema_success in E as (Hu & i' & -> & Hi & _).
    next_answer x. split; [split|]; try discriminate.
    intros _. split; [assumption|]. now exists i'.
  - settled. split; [split|].
    + intros H. now elim H.
    + intros (Hu & i & -> & Hi). exfalso.
      assert (voteSchema pollId (Js.Integer i) = Zod.success (pollId, i))
        as Hok by (apply voteSchema_success; split; [assumption|];
                   now exists i).
      rewrite Hok in E. discriminate E.
    + intros _. now exists first.
Qed.

(** A fraction as option index. *)
Lemma submitVote_calls_iff_request_accepted_witness :
  exists m,
    result (run Store.supabase
              (submitVote Sample.pollId (Js.NonInteger false))
              (Sample.world (Sample.signed_in Sample.alice) []))
    = Resolved (Some m).
Proof.
  apply (@submitVote_calls_iff_request_accepted _ Store.supabase
           (Sample.world (Sample.signed_in Sample.alice) [])
           Sample.pollId (Js.NonInteger false)).
  reflexivity.
Defined.

(** X16.  When the lookup of the poll answers with an error or without a
    row, [submitVote] resolves to "Poll not found." having awaited only
    the session lookup and that lookup: no vote is queried or inserted. *)
Theorem submitVote_poll_not_found
  (S : Type) (client : Client S) (s : S)
  (pollId : string) (optionIndex : Js.number)
  (p : string) (f : Single IdOptions.t) :
  let r := run client (submitVote pollId optionIndex) s in
  In (PollSelected p f) (trace r) ->
  error f <> None \/ data f = None ->
  result r = Resolved (Some "Poll not found.")
  /\ exists a, trace r = [GotUser a; PollSelected pollId f].
Proof.
  intros r. subst r. unfold submitVote.
  explore; open_answers; intros H Hf; find_event H;
    injection H as <- <- <-;
    try (split; [ reflexivity | eexists; reflexivity ]);
    destruct Hf as [Hf | Hf]; solve [ now elim Hf | discriminate Hf ].
Qed.

(** A vote on a poll that the sample store does not hold. *)
Lemma submitVote_poll_not_found_witness :
  let missing := "00000000-0000-4000-8000-00000000ffff" in
  let r := run Store.supabase (submitVote missing (Js.Integer 0))
             (Sample.world (Sample.signed_in Sample.alice) []) in
  result r = Resolved (Some "Poll not found.")
  /\ exists a,
       trace r = [GotUser a;
                  PollSelected missing (Store.single (@nil IdOptions.t))].
Proof.
  intros missing r.
  apply (@submitVote_poll_not_found _ Store.supabase
           (Sample.world (Sample.signed_in Sample.alice) [])
           missing (Js.Integer 0) missing
           (Store.single (@nil IdOptions.t))).
  - right. left. reflexivity.
  - right. reflexivity.
Defined.

(** X17.  Every vote that [submitVote] asks the store to insert is for the
    poll and the option index of the call, with the id of the session's
    user as voter ([null] without one); the poll lookup has answered with
    the poll, and the index is within its options. *)
Theorem submitVote_inserted_row
  (S : Type) (client : Client S) (s : S)
  (pollId : string) (optionIndex : Js.number)
  (p : string) (u : option string) (i : Z) (e : option PostgrestError.t) :
  let r := run client (submitVote pollId optionIndex) s in
  In (VoteInserted p u i e) (trace r) ->
  p = pollId
  /\ optionIndex = Js.Integer i
  /\ Zod.uuid pollId = true
  /\ (exists a, In (GotUser a) (trace r)
                /\ u = option_map User.id (user a))
  /\ (exists poll,
        In (PollSelected pollId {| data := Some poll; error := None |})
           (trace r)
        /\ (0 <= i < Z.of_nat (List.length (IdOptions.options poll)))%Z).
Proof.
  intros r. subst r. unfold submitVote.
  destruct (voteSchema pollId optionIndex) as [[p' i']|first others] eqn:E;
    [| settled; intros H; find_event H ].
  apply voteSchema_success in E as (Hu & i0 & -> & Hi & [= -> ->]).
  explore; open_answers; intros H; find_event H;
    injection H as <- <- <- _;
    match goal with
    | Hb : (_ || _) = false |- _ =>
        apply orb_false_iff in Hb as [_ Hb]; apply Z.leb_gt in Hb
    end;
    (split; [reflexivity|]); (split; [reflexivity|]);
    (split; [assumption|]);
    (split; [ eexists; split; [ left; reflexivity | reflexivity ] |]);
    eexists; (split; [ right; left; reflexivity |]); cbn; lia.
Qed.

(** alice votes for option 1 of the sample poll. *)
Lemma submitVote_inserted_row_witness :
  let r := run Store.supabase (submitVote Sample.pollId (Js.Integer 1))
             (Sample.world (Sample.signed_in Sample.alice) []) in
  exists poll,
    In (PollSelected Sample.pollId {| data := Some poll; error := None |})
       (trace r)
    /\ (0 <= 1 < Z.of_nat (List.length (IdOptions.options poll)))%Z.
Proof.
  intros r.
  apply (@submitVote_inserted_row _ Store.supabase
           (Sample.world (Sample.signed_in Sample.alice) [])
           Sample.pollId (Js.Integer 1)
           Sample.pollId (Some "user123") 1%Z None).
  right. right. right. left. reflexivity.
Defined.

(** X18.  [submitVote] queries the votes of a user only when the session
    lookup answered with one, and it asks for the insert of a vote with a
    voter only after that query, on that poll and that user, has answered
    without a row. *)
Theorem submitVote_precheck_discipline
  (S : Type) (client : Client S) (s : S)
  (pollId : string) (optionIndex : Js.number) :
  let r := run client (submitVote pollId optionIndex) s in
  (forall a, In (GotUser a) (trace r) -> user a = None ->
             forall p u g, ~ In (VoteSelected p u g) (trace r))
  /\ (forall p u i e,
         In (VoteInserted p (Some u) i e) (trace r) ->
         exists g, In (VoteSelected p u g) (trace r) /\ data g = None).
Proof.
  intros r. subst r. unfold submitVote.
  explore; open_answers;
    (split;
     [ intros a Ha Hu p u g H; find_event H; find_event Ha;
       injection Ha as <-; discriminate Hu
     | intros p u i e H; cbn [option_map] in H; find_event H;
       injection H as <- <- _ _;
       (eexists; split; [ right; right; left; reflexivity | reflexivity ]) ]).
Qed.

(** alice votes: the query of her votes comes first and finds none. *)
Lemma submitVote_precheck_discipline_witness :
  let r := run Store.supabase (submitVote Sample.pollId (Js.Integer 1))
             (Sample.world (Sample.signed_in Sample.alice) []) in
  exists g, In (VoteSelected Sample.pollId "user123" g) (trace r)
            /\ data g = None.
Proof.
  intros r.
  apply (@submitVote_precheck_discipline _ Store.supabase
           (Sample.world (Sample.signed_in Sample.alice) [])
           Sample.pollId (Js.Integer 1))
    with (i := 1%Z) (e := @None PostgrestError.t).
  right. right. right. left. reflexivity.
Defined.

(** X19.  When the store refuses the insert of the vote with an error
    whose code is not 23505, [submitVote] resolves to the message of that
    error. *)
Theorem submitVote_other_insert_error
  (S : Type) (client : Client S) (s : S)
  (pollId : string) (optionIndex : Js.number)
  (p : string) (u : option string) (i : Z) (e : PostgrestError.t) :
  let r := run client (submitVote pollId optionIndex) s in
  In (VoteInserted p u i (Some e)) (trace r) ->
  PostgrestError.code e <> "23505" ->
  result r = Resolved (Some (PostgrestError.message e)).
Proof.
  intros r. subst r. unfold submitVote.
  explore; intros H Hcode; find_event H; injection H as _ _ _ <-;
    try reflexivity.
  all: match goal with
       | Hc : String.eqb _ _ = true |- _ =>
           apply String.eqb_eq in Hc; now elim Hcode
       end.
Qed.

(** A store that refuses the insert of a vote for a missing poll. *)
Lemma submitVote_other_insert_error_witness :
  let violation :=
    {| PostgrestError.message := "violates foreign key constraint";
       PostgrestError.code := "23503" |} in
  let refusing : Client Store.World :=
    fun q =>
      match q return Store.World -> Response q * Store.World with
      | votes_insert _ _ _ => fun w => (Some violation, w)
      | other => Store.supabase other
      end in
  result (run refusing (submitVote Sample.pollId (Js.Integer 0))
            (Sample.world (Sample.signed_in Sample.alice) []))
  = Resolved (Some "violates foreign key constraint").
Proof.
  intros violation refusing.
  apply (@submitVote_other_insert_error _ refusing
           (Sample.world (Sample.signed_in Sample.alice) [])
           Sample.pollId (Js.Integer 0)
           Sample.pollId (Some "user123") 0%Z violation).
  - right. right. right. left. reflexivity.
  - discriminate.
Defined.

(** X20.  On the in-memory store, a well-formed vote of a caller without
    a session user is always recorded, with no voter: nothing keeps such a
    caller from voting again. *)
Theorem submitVote_anonymous_recorded
  (w : Store.World) (p : Poll.t) (pollId : string) (index : Z) :
  user (Store.session w) = None ->
  Zod.uuid pollId = true ->
  filter (Store.has_id pollId) (Store.polls w) = [p] ->
  (0 <= index < Z.of_nat (List.length (Poll.options p)))%Z ->
  let r := run Store.supabase (submitVote pollId (Js.Integer index)) w in
  result r = Resolved None
  /\ Store.votes (final r)
     = (Store.votes w
        ++ [{| Vote.id := Store.gen_random_uuid (Store.serial w);
               Vote.poll_id := pollId;
               Vote.user_id := None;
               Vote.option_index := index |}])%list.
Proof.
  intros Hu Hid Hp Hi r. subst r.
  unfold submitVote.
  assert (voteSchema pollId (Js.Integer index) = Zod.success (pollId, index))
    as -> by (apply voteSchema_success; split; [assumption|];
              exists index; repeat split; lia).
  store_answer. rewrite Hu.
  store_answer. rewrite Hp.
  cbn [map Store.single error data IdOptions.options].
  replace (index <? 0)%Z with false by (symmetry; apply Z.ltb_ge; lia).
  replace (Z.of_nat (List.length (Poll.options p)) <=? index)%Z with false
    by (symmetry; apply Z.leb_gt; lia).
  cbn [orb]. unfold insert_vote.
  store_answer. cbn [option_map fst snd]. settled.
  split; reflexivity.
Qed.

(** Two votes in a row without a session. *)
Lemma submitVote_anonymous_recorded_witness :
  let w := Sample.world {| user := None; userError := None |}
             [{| Vote.id := "00000000-0000-4000-8000-000000000001";
                 Vote.poll_id := Sample.pollId;
                 Vote.user_id := None;
                 Vote.option_index := 0%Z |}] in
  let r := run Store.supabase (submitVote Sample.pollId (Js.Integer 0)) w in
  result r = Resolved None
  /\ map Vote.user_id (Store.votes (final r)) = [None; None].
Proof.
  intros w r.
  destruct (@submitVote_anonymous_recorded w Sample.poll Sample.pollId 0%Z)
    as [resolved recorded].
  - reflexivity.
  - reflexivity.
  - reflexivity.
  - simpl. lia.
  - split; [exact resolved |]. subst r. rewrite recorded. reflexivity.
Defined.

(* ================================================================= *)
(** ** deletePoll: who gets a delete issued *)

(** X21.  [deletePoll] asks the store for a delete only of the poll it
    was called for, and only after the session lookup answered with a
    user and no error and the fetch answered with an owner that is that
    user, or else with that user an administrator. *)
Theorem deletePoll_only_owner_or_admin
  (S : Type) (client : Client S) (s : S) (env : ProcessEnv) (id : string)
  (deleted : string) (e : option PostgrestError.t) :
  let r := run client (deletePoll env id) s in
  In (PollDeleted deleted e) (trace r) ->
  deleted = id
  /\ exists u owner,
       authenticated_as u (trace r)
       /\ In (OwnerSelected id {| data := Some owner; error := None |})
             (trace r)
       /\ (owner = User.id u \/ isAdmin env u = true).
Proof.
  intros r. subst r. unfold deletePoll, authenticated_as.
  explore; open_answers; intros H; find_event H; injection H as <- _;
    (split; [reflexivity|]);
    match goal with
    | Hb : (negb (String.eqb ?o (User.id ?u)) && negb _) = false |- _ =>
        exists u, o;
        (split; [ left; reflexivity |]);
        (split; [ right; left; reflexivity |]);
        apply andb_false_iff in Hb as [Hb | Hb];
        apply negb_false_iff in Hb;
        [ left; now apply String.eqb_eq | right; exact Hb ]
    end.
Qed.

(** alice deletes her poll. *)
Lemma deletePoll_only_owner_or_admin_witness :
  let r := run Store.supabase (deletePoll Sample.unset Sample.pollId)
             (Sample.world (Sample.signed_in Sample.alice) []) in
  exists u owner,
    authenticated_as u (trace r)
    /\ In (OwnerSelected Sample.pollId
             {| data := Some owner; error := None |}) (trace r)
    /\ (owner = User.id u \/ isAdmin Sample.unset u = true).
Proof.
  intros r.
  apply (@deletePoll_only_owner_or_admin _ Store.supabase
           (Sample.world (Sample.signed_in Sample.alice) [])
           Sample.unset Sample.pollId Sample.pollId None).
  right. right. left. reflexivity.
Defined.

(* ================================================================= *)
(** ** The admin allow-list *)

Lemma split_not_nil (sep : ascii) (s : string) : Js.split sep s <> [].
Proof.
  destruct s as [|a s]; simpl; [discriminate|].
  destruct (Ascii.eqb a sep); [discriminate|].
  destruct (Js.split sep s); discriminate.
Qed.

Lemma join_cons (sep x : string) (xs : list string) :
  xs <> [] -> join sep (x :: xs) = x ++ sep ++ join sep xs.
Proof. destruct xs; [intros H; now elim H | reflexivity]. Qed.

Lemma join_split (sep : ascii) (s : string) :
  join (String sep EmptyString) (Js.split sep s) = s.
Proof.
  induction s as [|a s IH]; simpl; [reflexivity|].
  pose proof (split_not_nil sep s) as Hne.
  destruct (Ascii.eqb_spec a sep) as [-> | _].
  - rewrite join_cons by assumption. simpl. now rewrite IH.
  - destruct (Js.split sep s) as [|piece pieces]; [now elim Hne|].
    destruct pieces as [|next pieces].
    + simpl in *. now rewrite IH.
    + rewrite join_cons in * by discriminate. simpl in *. now rewrite IH.
Qed.

Lemma split_pieces_without_separator (sep : ascii) (s : string) :
  Forall (fun piece => Js.includes_char sep piece = false) (Js.split sep s).
Proof.
  induction s as [|a s IH]; simpl.
  - repeat constructor.
  - destruct (Ascii.eqb a sep) eqn:E.
    + constructor; [reflexivity | exact IH].
    + destruct (Js.split sep s) as [|piece pieces].
      * repeat constructor. simpl. now rewrite E.
      * inversion IH as [|? ? Hpiece Hpieces]; subst.
        constructor; [| exact Hpieces]. simpl. now rewrite E, Hpiece.
Qed.

(** X22.  When [ADMIN_EMAILS] is set, the allow-list is never empty and
    never the fallback pair by default: it is the pieces of the variable
    between its commas, as they stand (joined by commas they give the
    variable back, and none holds a comma). *)
Theorem ADMIN_EMAILS_when_set (value : string) :
  let admins := ADMIN_EMAILS {| env_ADMIN_EMAILS := Some value |} in
  join "," admins = value
  /\ admins <> []
  /\ Forall (fun e => Js.includes_char "," e = false) admins.
Proof.
  intros admins. subst admins. unfold ADMIN_EMAILS. cbn [env_ADMIN_EMAILS].
  split; [| split].
  - apply join_split.
  - apply split_not_nil.
  - apply split_pieces_without_separator.
Qed.

(* ================================================================= *)
(** ** updatePoll: the form *)

(** X23.  [updatePoll] awaits a call exactly when the form has a question
    that is not empty and at least two option entries that are not empty;
    any other form gets "Please provide a question and at least two
    options." without any call. *)
Theorem updatePoll_calls_iff_form_accepted
  (S : Type) (client : Client S) (s : S)
  (pollId : string) (formData : FormData) :
  let r := run client (updatePoll pollId formData) s in
  (trace r <> [] <-> exists q os, well_formed formData q os)
  /\ (trace r = [] ->
      result r
      = Resolved
          (Some "Please provide a question and at least two options.")).
Proof.
  intros r. subst r. unfold updatePoll, well_formed.
  destruct (get_question formData) as [q|].
  - destruct (Js.truthy q) eqn:Eq; cbn [negb orb].
    + destruct (Nat.ltb_spec
                  (List.length (filter Js.truthy (getAll_options formData)))
                  2) as [Hn | Hn].
      * settled. split; [split|]; [ intros H; now elim H | | reflexivity ].
        intros (q' & os & _ & _ & -> & Hos). lia.
      * next_answer x. split; [split|]; try discriminate.
        intros _. exists q. eexists. repeat split; assumption.
    + settled. split; [split|]; [ intros H; now elim H | | reflexivity ].
      intros (q' & os & [= <-] & Ht & _). congruence.
  - settled. split; [split|]; [ intros H; now elim H | | reflexivity ].
    intros (q' & os & H & _). discriminate H.
Qed.

(** A form with a question and a single option that is not empty. *)
Lemma updatePoll_calls_iff_form_accepted_witness :
  result (run Store.supabase
            (updatePoll Sample.pollId
               {| get_question := Some "Valid question?";
                  getAll_options := ["Only one option"; EmptyString] |})
            (Sample.world (Sample.signed_in Sample.alice) []))
  = Resolved (Some "Please provide a question and at least two options.").
Proof.
  apply (@updatePoll_calls_iff_form_accepted _ Store.supabase
           (Sample.world (Sample.signed_in Sample.alice) [])
           Sample.pollId
           {| get_question := Some "Valid question?";
              getAll_options := ["Only one option"; EmptyString] |}).
  reflexivity.
Defined.

(** alice updates her poll on the sample store. *)
Lemma updatePoll_scoped_by_owner_witness :
  let r := run Store.supabase
             (updatePoll Sample.pollId (Sample.form "Pick two?"))
             (Sample.world (Sample.signed_in Sample.alice) []) in
  exists e,
    trace r = [GotUser (Sample.signed_in Sample.alice);
               PollUpdated "Pick two?" ["A"; "B"] Sample.pollId
                 "user123" e]
    /\ result r = Resolved (option_map PostgrestError.message e).
Proof.
  intros r.
  apply (@updatePoll_scoped_by_owner _ Store.supabase
           (Sample.world (Sample.signed_in Sample.alice) [])
           Sample.pollId (Sample.form "Pick two?") "Pick two?"
           ["A"; "B"] Sample.alice).
  - repeat split. simpl. lia.
  - left. reflexivity.
Defined.

(* ================================================================= *)
(** ** The read actions *)

(** X24.  [getUserPolls] awaits the session lookup and then at most one
    query, that of the polls whose owner is the user that the lookup
    answered with: with such a user its calls are exactly these two, and
    without one the lookup alone, the result being "Not authenticated"
    with no poll, whatever error the lookup carried.  It never hands out
    polls together with an error. *)
Theorem getUserPolls_scoped_to_session_user
  (Row S : Type) (client : Read.Client Row S) (s : S) :
  let a := fst (client Read.getUser s) in
  let r := Read.run client (getUserPolls Row) s in
  (forall u, user a = Some u ->
             Read.asked r
             = [Read.getUser; Read.polls_by_user_id (User.id u)])
  /\ (user a = None ->
      Read.result r = {| UserPolls.polls := [];
                         UserPolls.error := Some "Not authenticated" |}
      /\ Read.asked r = [Read.getUser])
  /\ (UserPolls.error (Read.result r) <> None ->
      UserPolls.polls (Read.result r) = []).
Proof.
  intros a r. subst a r. unfold getUserPolls. cbn [Read.run].
  destruct (client Read.getUser s) as [a s1]. cbn [fst].
  destruct (user a) as [u|]; cbn [Read.run Read.result Read.asked].
  - destruct (client (Read.polls_by_user_id (User.id u)) s1) as [g s2].
    destruct (error g); cbn [Read.run Read.result Read.asked
                               UserPolls.polls UserPolls.error].
    + split; [| split]; [| discriminate | reflexivity ].
      now intros u' [= <-].
    + split; [| split]; [| discriminate | intros H; now elim H ].
      now intros u' [= <-].
  - split; [| split]; [ discriminate | split; reflexivity | reflexivity ].
Qed.

(** With the session of alice, and with a session lookup that fails. *)
Lemma getUserPolls_scoped_to_session_user_witness :
  let client (session : UserResponse) : Read.Client Poll.t unit :=
    fun q =>
      match q return unit -> Read.Answer Poll.t q * unit with
      | Read.getUser => fun u => (session, u)
      | Read.polls_by_user_id _ =>
          fun u => ({| data := Some [Sample.poll]; error := None |}, u)
      | Read.polls_by_id _ =>
          fun u => ({| data := Some Sample.poll; error := None |}, u)
      end in
  Read.asked (Read.run (client (Sample.signed_in Sample.alice))
                (getUserPolls Poll.t) tt)
  = [Read.getUser; Read.polls_by_user_id "user123"]
  /\ (let r := Read.run (client Sample.no_session) (getUserPolls Poll.t) tt in
      Read.result r = {| UserPolls.polls := [];
                         UserPolls.error := Some "Not authenticated" |}
      /\ Read.asked r = [Read.getUser]).
Proof.
  intros client. split.
  - destruct (@getUserPolls_scoped_to_session_user Poll.t unit
                (client (Sample.signed_in Sample.alice)) tt)
      as [with_user _].
    apply (with_user Sample.alice). reflexivity.
  - apply (@getUserPolls_scoped_to_session_user Poll.t unit
             (client Sample.no_session) tt).
    reflexivity.
Defined.

(** X25.  [getPollById] awaits the query of the poll by id and nothing
    else, the session is never looked up: any caller gets any poll.  The
    result holds a poll or an error, never both; an error of the store
    comes back as its message. *)
Theorem getPollById_result
  (Row S : Type) (client : Read.Client Row S) (s : S) (id : string) :
  let a := fst (client (Read.polls_by_id id) s) in
  let r := Read.run client (getPollById Row id) s in
  Read.asked r = [Read.polls_by_id id]
  /\ (PollById.poll (Read.result r) <> None ->
      PollById.error (Read.result r) = None
      /\ PollById.poll (Read.result r) = data a)
  /\ (forall e, error a = Some e ->
                Read.result r
                = {| PollById.poll := None;
                     PollById.error := Some (PostgrestError.message e) |}).
Proof.
  intros a r. subst a r. unfold getPollById. cbn [Read.run].
  destruct (client (Read.polls_by_id id) s) as [a s1]. cbn [fst].
  destruct (error a) as [e|];
    cbn [Read.run Read.result Read.asked PollById.poll PollById.error].
  - split; [reflexivity | split].
    + intros H. now elim H.
    + now intros e' [= <-].
  - split; [reflexivity | split].
    + intros _. split; reflexivity.
    + discriminate.
Qed.

(** A caller reads the sample poll without any session. *)
Lemma getPollById_result_witness :
  let client : Read.Client Poll.t Store.World :=
    fun q =>
      match q return Store.World -> Read.Answer Poll.t q * Store.World with
      | Read.getUser => fun w => (Store.session w, w)
      | Read.polls_by_user_id u =>
          fun w => ({| data := Some (filter (Store.owned_by u)
                                            (Store.polls w));
                       error := None |}, w)
      | Read.polls_by_id id =>
          fun w => (Store.single (filter (Store.has_id id)
                                         (Store.polls w)), w)
      end in
  let r := Read.run client (getPollById Poll.t Sample.pollId)
             (Sample.world Sample.no_session []) in
  PollById.error (Read.result r) = None
  /\ PollById.poll (Read.result r) = Some Sample.poll.
Proof.
  intros client r.
  apply (@getPollById_result Poll.t Store.World client
           (Sample.world Sample.no_session []) Sample.pollId).
  discriminate.
Defined.

(* ================================================================= *)
(** ** The middleware's headers *)

Section HeaderLists.

Variables (name other value : string).

Lemma named_both (entry : string * string) :
  Headers.named name entry = true ->
  Headers.named other entry = true ->
  String.eqb (Headers.lower other) (Headers.lower name) = true.
Proof.
  unfold Headers.named. rewrite !String.eqb_eq. congruence.
Qed.

Hypothesis differ :
  String.eqb (Headers.lower other) (Headers.lower name) = false.

Lemma named_apart (entry : string * string) :
  Headers.named name entry = true -> Headers.named other entry = false.
Proof.
  intros Hn. destruct (Headers.named other entry) eqn:Ho; [|reflexivity].
  now rewrite (named_both entry Hn Ho) in differ.
Qed.

Lemma filter_without_name (h : Headers.t) :
  filter (Headers.named other)
         (filter (fun e => negb (Headers.named name e)) h)
  = filter (Headers.named other) h.
Proof.
  induction h as [|entry h IH]; simpl; [reflexivity|].
  destruct (Headers.named name entry) eqn:Hn; simpl.
  - now rewrite (named_apart entry Hn).
  - now rewrite IH.
Qed.

Lemma filter_set_first_other (h : Headers.t) :
  filter (Headers.named other) (Headers.set_first name value h)
  = filter (Headers.named other) h.
Proof.
  induction h as [|entry h IH]; simpl; [reflexivity|].
  destruct (Headers.named name entry) eqn:Hn; simpl.
  - rewrite (named_apart entry Hn).
    assert (Headers.named other (fst entry, value) = false) as ->
      by (apply named_apart; exact Hn).
    apply filter_without_name.
  - now rewrite IH.
Qed.

(** Setting a header leaves the headers of every other name as they are,
    each of them and their order. *)
Lemma filter_set_other (h : Headers.t) :
  filter (Headers.named other) (Headers.set name value h)
  = filter (Headers.named other) h.
Proof.
  unfold Headers.set.
  destruct (existsb (Headers.named name) h).
  - apply filter_set_first_other.
  - rewrite filter_app. cbn [filter].
    assert (Headers.named other (name, value) = false) as ->
      by (unfold Headers.named; cbn [fst];
          now rewrite String.eqb_sym, differ).
    apply app_nil_r.
Qed.

Lemma get_set_other (h : Headers.t) :
  Headers.get other (Headers.set name value h) = Headers.get other h.
Proof.
  unfold Headers.get. now rewrite filter_set_other.
Qed.

End HeaderLists.

Lemma filter_none_left (name : string) (h : Headers.t) :
  filter (Headers.named name)
         (filter (fun e => negb (Headers.named name e)) h)
  = [].
Proof.
  induction h as [|entry h IH]; simpl; [reflexivity|].
  destruct (Headers.named name entry) eqn:Hn; simpl; [exact IH|].
  now rewrite Hn.
Qed.

(** After a header has been set, it is the only one of its name. *)
Lemma filter_set_same (name value : string) (h : Headers.t) :
  exists kept,
    filter (Headers.named name) (Headers.set name value h)
    = [(kept, value)].
Proof.
  unfold Headers.set.
  destruct (existsb (Headers.named name) h) eqn:E.
  - induction h as [|entry h IH]; simpl in *; [discriminate|].
    destruct (Headers.named name entry) eqn:Hn; simpl.
    + exists (fst entry).
      assert (Headers.named name (fst entry, value) = true) as ->
        by exact Hn.
      now rewrite filter_none_left.
    + rewrite Hn. now apply IH.
  - exists name. rewrite filter_app. cbn [filter].
    assert (Headers.named name (name, value) = true) as ->
      by (unfold Headers.named; apply String.eqb_refl).
    assert (filter (Headers.named name) h = []) as ->; [| reflexivity].
    induction h as [|entry h IH]; simpl in *; [reflexivity|].
    apply orb_false_iff in E as [Hn Hrest]. rewrite Hn. now apply IH.
Qed.

Lemma get_set_same (name other value : string) (h : Headers.t) :
  String.eqb (Headers.lower other) (Headers.lower name) = true ->
  Headers.get other (Headers.set name value h) = Some value.
Proof.
  intros Hsame. apply String.eqb_eq in Hsame.
  assert (filter (Headers.named other) (Headers.set name value h)
          = filter (Headers.named name) (Headers.set name value h)) as Hf.
  { apply filter_ext. intros e. unfold Headers.named. now rewrite Hsame. }
  unfold Headers.get. rewrite Hf.
  destruct (filter_set_same name value h) as [kept ->]. reflexivity.
Qed.

Lemma find_app_last {A : Type} (p : A -> bool) (l : list A) (x : A) :
  find p (l ++ [x])
  = match find p l with
    | Some found => Some found
    | None => if p x then Some x else None
    end.
Proof.
  induction l as [|y l IH]; simpl; [reflexivity|].
  destruct (p y); [reflexivity | exact IH].
Qed.

(** After a list of headers has been set one by one, a name has the value
    of the last entry of the list with that name, and without one the
    value it had. *)
Lemma get_after_sets (entries : list (string * string)) (name : string)
  (h : Headers.t) :
  Headers.get name
    (fold_left (fun h entry => Headers.set (fst entry) (snd entry) h)
               entries h)
  = match find (Headers.named name) (rev entries) with
    | Some entry => Some (snd entry)
    | None => Headers.get name h
    end.
Proof.
  revert h. induction entries as [|entry entries IH]; intros h;
    [reflexivity|].
  cbn [fold_left rev]. rewrite IH, find_app_last.
  destruct (find (Headers.named name) (rev entries)); [reflexivity|].
  destruct (Headers.named name entry) eqn:Hn.
  - unfold Headers.named in Hn. rewrite String.eqb_sym in Hn.
    now apply get_set_same.
  - unfold Headers.named in Hn. rewrite String.eqb_sym in Hn.
    now apply get_set_other.
Qed.

(** Setting a list of headers leaves the headers of every name that is not
    in the list as they are. *)
Lemma filter_after_sets (entries : list (string * string)) (name : string)
  (h : Headers.t) :
  forallb (fun entry => negb (Headers.named name entry)) entries = true ->
  filter (Headers.named name)
    (fold_left (fun h entry => Headers.set (fst entry) (snd entry) h)
               entries h)
  = filter (Headers.named name) h.
Proof.
  revert h. induction entries as [|entry entries IH]; intros h Hall;
    [reflexivity|].
  cbn [forallb] in Hall. apply andb_true_iff in Hall as [Hn Hrest].
  cbn [fold_left]. rewrite (IH _ Hrest).
  apply filter_set_other.
  apply negb_true_iff in Hn. unfold Headers.named in Hn.
  now rewrite String.eqb_sym.
Qed.

(** X26.  Whatever response [updateSession] returns, also one that
    already carries some of these headers in whatever case of letters,
    the response of the middleware has each security header with the
    value of the middleware. *)
Theorem middleware_sets_security_headers
  (Req Rest : Type) (updateSession : Req -> NextResponse Rest)
  (request : Req) (name value : string) :
  In (name, value) securityHeaders ->
  Headers.get name (headers (middleware updateSession request))
  = Some value.
Proof.
  intros Hin. unfold middleware. cbn [headers]. rewrite get_after_sets.
  unfold securityHeaders in Hin. cbn [In] in Hin.
  repeat (destruct Hin as [[= <- <-] | Hin]; [reflexivity|]).
  destruct Hin.
Qed.

(** A session response that allows framing, twice over, loses that
    permission. *)
Lemma middleware_sets_security_headers_witness :
  Headers.get "x-frame-options"
    (headers (middleware
                (fun _ : unit =>
                   {| headers := [("x-frame-options", "SAMEORIGIN");
                                  ("set-cookie", "sb-token=1");
                                  ("X-Frame-Options", "ALLOWALL")];
                      rest := tt |}) tt))
  = Some "DENY".
Proof.
  assert (Headers.get "X-Frame-Options"
            (headers (middleware
                        (fun _ : unit =>
                           {| headers := [("x-frame-options", "SAMEORIGIN");
                                          ("set-cookie", "sb-token=1");
                                          ("X-Frame-Options", "ALLOWALL")];
                              rest := tt |}) tt))
          = Some "DENY") as set.
  { apply middleware_sets_security_headers.
    right. left. reflexivity. }
  exact set.
Defined.

(** X27.  The middleware changes nothing else of the response: the
    headers whose name is none of the seven are all kept, each with its
    value and in their order, also when a name is repeated, so that [get]
    gives for such a name what it gave; and the rest of the response is
    that of [updateSession]. *)
Theorem middleware_keeps_other_headers
  (Req Rest : Type) (updateSession : Req -> NextResponse Rest)
  (request : Req) (name : string) :
  forallb (fun entry => negb (Headers.named name entry)) securityHeaders
  = true ->
  filter (Headers.named name) (headers (middleware updateSession request))
  = filter (Headers.named name) (headers (updateSession request))
  /\ Headers.get name (headers (middleware updateSession request))
     = Headers.get name (headers (updateSession request))
  /\ rest (middleware updateSession request)
     = rest (updateSession request).
Proof.
  intros Hother.
  assert (filter (Headers.named name)
            (headers (middleware updateSession request))
          = filter (Headers.named name) (headers (updateSession request)))
    as Hkept
    by (unfold middleware; cbn [headers];
        now apply filter_after_sets).
  split; [exact Hkept | split; [| reflexivity]].
  unfold Headers.get. now rewrite Hkept.
Qed.

(** Two session cookies of [updateSession] pass through, both. *)
Lemma middleware_keeps_other_headers_witness :
  let response :=
    {| headers := [("set-cookie", "sb-access=1");
                   ("x-frame-options", "SAMEORIGIN");
                   ("Set-Cookie", "sb-refresh=2")];
       rest := tt |} in
  let after := middleware (fun _ : unit => response) tt in
  filter (Headers.named "Set-Cookie") (headers after)
  = [("set-cookie", "sb-access=1"); ("Set-Cookie", "sb-refresh=2")]
  /\ Headers.get "Set-Cookie" (headers after)
     = Some "sb-access=1, sb-refresh=2"
  /\ rest after = tt.
Proof.
  intros response after.
  apply (@middleware_keeps_other_headers unit unit
           (fun _ : unit => response) tt "Set-Cookie").
  reflexivity.
Defined.
